(** * server/server.js: the Socket.io chat coordinator

    A shallow embedding of the event handlers registered in
    [io.on('connection', ...)] together with the in-memory stores they
    mutate ([users], [messages], [typingUsers]), the per-socket metadata
    ([socket.data]) and the room table of the Socket.io adapter.

    The handlers are written in a small monad of state, emitted effects and
    exceptions, so that [try]/[catch] and the partial work done before a
    throw are as in the source.  Socket.io is taken as its version 4 with the
    in-memory adapter: a socket sits in the room named by its id from the
    moment it connects, [io.to(room)] reaches the members of the room,
    [socket.to(room)] leaves out the room named by the socket's id, and
    [io.emit] reaches every connected socket.

    Console output is not modelled.  Strings are sequences of 8-bit code
    units; [Date.now()], [Math.random()] and [new Date().toISOString()] are
    read from an explicit [clock] argument. *)

From Stdlib Require Import ZArith String Ascii List Lia.
From stdpp Require Import base decidable option list gmap sets strings.

Local Open Scope string_scope.
Local Open Scope list_scope.
Local Open Scope Z_scope.

(** ** JavaScript values reaching the handlers *)

Module JS.

(** A value received in an event payload.  A boolean, number or plain
    object is given by what [ToBoolean] and [String(...)] make of it, which
    is all the handlers ever ask of such a value; [Opaque] is an object that
    has no primitive form, such as [{ toString: null }]. *)
#[local] Unset Elimination Schemes.
Inductive value : Type :=
| Undefined
| Null
| Str (s : string)
| Arr (items : list value)
| Other (truthy : bool) (str : string)
| Opaque.
#[local] Set Elimination Schemes.

(** [!!v] *)
Definition truthy (v : value) : bool :=
  match v with
  | Undefined | Null => false
  | Str s => if decide (s = "") then false else true
  | Arr _ | Opaque => true
  | Other b _ => b
  end.

(** [a || b] *)
Definition or (a b : value) : value := if truthy a then a else b.

(** Whether [String(v)] returns: converting an object without primitive
    form, or an array holding one, throws a [TypeError]. *)
Fixpoint printable (v : value) : bool :=
  match v with
  | Opaque => false
  | Arr items => forallb printable items
  | _ => true
  end.

(** What [String(v)] returns when it does; an array is joined with commas,
    its [undefined] and [null] elements contributing nothing. *)
Fixpoint String (v : value) : string :=
  match v with
  | Undefined => "undefined"
  | Null => "null"
  | Str s => s
  | Arr items =>
      String.concat ","
        (map (λ x, match x with Undefined | Null => "" | _ => String x end)
           items)
  | Other _ s => s
  | Opaque => ""
  end.

(** [typeof v === 'string'] *)
Definition is_string (v : value) : bool :=
  match v with Str _ => true | _ => false end.

(** White space as [String.prototype.trim] sees it, among the code units
    below 256: TAB, LF, VT, FF, CR, SP and NBSP. *)
Definition is_white_space (c : ascii) : bool :=
  match c with
  | "009" | "010" | "011" | "012" | "013" | " " | "160" => true
  | _ => false
  end%char.

Fixpoint trimStart (s : string) : string :=
  match s with
  | EmptyString => EmptyString
  | String.String c s' => if is_white_space c then trimStart s' else s
  end.

Definition trimEnd (s : string) : string :=
  String.rev (trimStart (String.rev s)).

(** [s.trim()] *)
Definition trim (s : string) : string := trimEnd (trimStart s).

(** [s.slice(0, n)] *)
Definition slice0 (n : nat) (s : string) : string := substring 0 n s.

(** Every character of [s] is white space. *)
Fixpoint blank (s : string) : bool :=
  match s with
  | EmptyString => true
  | String.String c s' => is_white_space c && blank s'
  end.

(** The argument an event handler receives in a payload position:
    nothing ([undefined], for which a default parameter applies), [null],
    or an object with properties.  A primitive payload has none of the
    properties the handlers read and behaves as [Object []]. *)
Inductive payload : Type :=
| NoPayload
| NullPayload
| Object (props : list (string * value)).

Fixpoint get (props : list (string * value)) (name : string) : value :=
  match props with
  | [] => Undefined
  | (k, v) :: rest => if decide (k = name) then v else get rest name
  end.

End JS.

(** ** Configuration *)

(** [Number(process.env.X) || default], for settings that are integers: an
    unset or unparsable variable gives [NaN], which is falsy like [0]. *)
Definition env_number (raw : option Z) (default : Z) : Z :=
  match raw with
  | Some n => if n =? 0 then default else n
  | None => default
  end.

Record config : Type := Config {
  MAX_STORED_MESSAGES : Z;
  MAX_MESSAGE_LENGTH : Z
}.

Definition load_config (stored len : option Z) : config :=
  {| MAX_STORED_MESSAGES := env_number stored 200;
     MAX_MESSAGE_LENGTH := env_number len 1000 |}.

Definition default_config : config := load_config None None.

(** ** Data *)

(** Entry of [users]: [{ id, username }] *)
Record user : Type := User { user_id : string; user_username : string }.

(** [socket.data]: both properties start out absent. *)
Record socket_data : Type := SocketData {
  data_username : option string;
  data_room : option string
}.

Definition fresh_data : socket_data :=
  {| data_username := None; data_room := None |}.

(** The object built in the [send_message] handler. *)
Record message : Type := Message {
  msg_id : Z;
  msg_text : string;
  msg_sender : string;
  msg_senderId : string;
  msg_timestamp : string;
  msg_room : JS.value;
  msg_isPrivate : bool
}.

(** The object built in the [private_message] handler. *)
Record private_msg : Type := PrivateMsg {
  pm_id : Z;
  pm_text : string;
  pm_sender : string;
  pm_senderId : string;
  pm_recipientId : string;
  pm_timestamp : string;
  pm_isPrivate : bool
}.

Record receipt : Type := Receipt {
  rc_messageId : JS.value;
  rc_readerId : string;
  rc_username : string;
  rc_timestamp : string
}.

(** Events the server emits to clients. *)
Inductive server_event : Type :=
| user_list (roster : list user)
| typing_users (names : list string)
| user_joined (username id : string)
| user_left (username id reason : string)
| user_joined_room (username id room : string)
| user_left_room (username id room : string)
| receive_message (m : message)
| private_message (m : private_msg)
| message_read (r : receipt).

(** Acknowledgment payloads. *)
Inductive ack : Type :=
| AckOk                                      (* { ok: true } *)
| AckOkId (id : string)                      (* { ok: true, id } *)
| AckOkMessage (messageId : Z) (timestamp : string)
| AckError (error : string).                 (* { ok: false, error } *)

(** What a handler does to the outside: one event delivered to one socket,
    or the acknowledgment callback of the calling socket invoked. *)
Inductive effect : Type :=
| Deliver (to : string) (e : server_event)
| Acknowledge (caller : string) (a : ack).

(** Readings of the clock and of the random source taken by a handler. *)
Record clock : Type := Clock {
  Date_now : Z;
  random_1000 : Z;          (* Math.floor(Math.random() * 1000) *)
  toISOString : string
}.

(** The server: the three stores of server.js, the connected sockets with
    their [data], and the adapter's table from room name to member ids. *)
Record state : Type := State {
  users : gmap string user;
  messages : list message;
  typingUsers : gmap string string;
  sockets : gmap string socket_data;
  rooms : gmap string (gset string)
}.

Definition initial : state :=
  {| users := ∅; messages := []; typingUsers := ∅; sockets := ∅; rooms := ∅ |}.

(** ** The adapter's room table *)

(** [adapter.rooms.get(room) || []] *)
Definition members (st : state) (room : string) : gset string :=
  default ∅ (rooms st !! room).

(** [adapter.addAll(id, {room})] *)
Definition adapter_add (id room : string)
    (rs : gmap string (gset string)) : gmap string (gset string) :=
  <[room := {[id]} ∪ default ∅ (rs !! room)]> rs.

(** [adapter.del(id, room)]: a room left empty is dropped from the table. *)
Definition adapter_del (id room : string)
    (rs : gmap string (gset string)) : gmap string (gset string) :=
  match rs !! room with
  | None => rs
  | Some ids =>
      if decide (ids ∖ {[id]} = ∅) then delete room rs
      else <[room := ids ∖ {[id]}]> rs
  end.

(** [adapter.delAll(id)] *)
Definition adapter_delAll (id : string)
    (rs : gmap string (gset string)) : gmap string (gset string) :=
  filter (λ kv, kv.2 ≠ ∅) ((λ ids, ids ∖ {[id]}) <$> rs).

(** ** Handlers as state transformers that may throw *)

(** A handler body runs on the server state, emits effects and either
    completes with a value or throws ([None]).  State changes and effects
    made before a throw stay made. *)
Definition handler (A : Type) : Type := state → option A * state * list effect.

#[global] Instance handler_ret : MRet handler := λ A a st, (Some a, st, []).

#[global] Instance handler_bind : MBind handler := λ A B f m st,
  match m st with
  | (Some a, st1, out1) =>
      match f a st1 with (r, st2, out2) => (r, st2, out1 ++ out2) end
  | (None, st1, out1) => (None, st1, out1)
  end.

Definition throw {A} : handler A := λ st, (None, st, []).

(** [try { body } catch (err) { rescue }] *)
Definition try_catch (body rescue : handler ()) : handler () := λ st,
  match body st with
  | (Some tt, st1, out1) => (Some tt, st1, out1)
  | (None, st1, out1) =>
      match rescue st1 with (r, st2, out2) => (r, st2, out1 ++ out2) end
  end.

Definition read : handler state := λ st, (Some st, st, []).
Definition update (f : state → state) : handler () := λ st, (Some tt, f st, []).
Definition tell (out : list effect) : handler () := λ st, (Some tt, st, out).

(** Final state and effects of a handler invocation. *)
Definition exec (h : handler ()) (st : state) : state * list effect :=
  match h st with (_, st', out) => (st', out) end.

(** [(payload = {}, ...) =>]: the default applies to [undefined] only. *)
Definition default_param (p : JS.payload) : JS.payload :=
  match p with JS.NoPayload => JS.Object [] | _ => p end.

(** [payload.name]: a [TypeError] on [null] (and [undefined]). *)
Definition prop (p : JS.payload) (name : string) : handler JS.value :=
  match p with
  | JS.Object props => mret (JS.get props name)
  | JS.NullPayload | JS.NoPayload => throw
  end.

(** [String(v)] inside a handler: the string, or a thrown [TypeError]. *)
Definition to_string (v : JS.value) : handler string :=
  if JS.printable v then mret (JS.String v) else throw.

(** [if (typeof callback === 'function') callback(a)] *)
Definition call (callback : bool) (caller : string) (a : ack) : handler () :=
  if callback then tell [Acknowledge caller a] else mret tt.

(** *** Store updates *)

Definition set_users (f : gmap string user → gmap string user) (st : state) :=
  {| users := f (users st); messages := messages st;
     typingUsers := typingUsers st; sockets := sockets st; rooms := rooms st |}.

Definition set_messages (f : list message → list message) (st : state) :=
  {| users := users st; messages := f (messages st);
     typingUsers := typingUsers st; sockets := sockets st; rooms := rooms st |}.

Definition set_typingUsers (f : gmap string string → gmap string string)
    (st : state) :=
  {| users := users st; messages := messages st;
     typingUsers := f (typingUsers st); sockets := sockets st;
     rooms := rooms st |}.

Definition set_sockets (f : gmap string socket_data → gmap string socket_data)
    (st : state) :=
  {| users := users st; messages := messages st;
     typingUsers := typingUsers st; sockets := f (sockets st);
     rooms := rooms st |}.

Definition set_rooms
    (f : gmap string (gset string) → gmap string (gset string)) (st : state) :=
  {| users := users st; messages := messages st;
     typingUsers := typingUsers st; sockets := sockets st;
     rooms := f (rooms st) |}.

(** [socket.data] of a connected socket. *)
Definition data_of (st : state) (sid : string) : socket_data :=
  default fresh_data (sockets st !! sid).

(** An optional string property read as a value. *)
Definition field (o : option string) : JS.value :=
  match o with Some s => JS.Str s | None => JS.Undefined end.

(** [socket.data.username = username] *)
Definition assign_username (sid username : string) : handler () :=
  update (set_sockets (alter (λ d,
    {| data_username := Some username; data_room := data_room d |}) sid)).

(** [socket.data.room = room] and [delete socket.data.room] *)
Definition assign_room (sid : string) (room : option string) : handler () :=
  update (set_sockets (alter (λ d,
    {| data_username := data_username d; data_room := room |}) sid)).

(** [socket.join(room)] and [socket.leave(room)] *)
Definition socket_join (sid room : string) : handler () :=
  update (set_rooms (adapter_add sid room)).
Definition socket_leave (sid room : string) : handler () :=
  update (set_rooms (adapter_del sid room)).

(** *** Emitting *)

Definition deliver_all (e : server_event) (ids : list string) : list effect :=
  (λ id, Deliver id e) <$> ids.

(** [io.emit(e)]: every connected socket. *)
Definition io_emit (e : server_event) : handler () := λ st,
  (Some tt, st, deliver_all e (elements (dom (sockets st)))).

(** [adapter.rooms.get(room) || []] for an arbitrary value: the keys of the
    table are strings, so any other value finds nothing. *)
Definition lodged (st : state) (room : JS.value) : gset string :=
  match room with JS.Str r => members st r | _ => ∅ end.

(** Sockets addressed by [io.to(room)]: the members of the room, or of each
    room of an array of rooms; with no room at all (the empty array) the
    broadcast goes to every connected socket. *)
Definition addressed (st : state) (room : JS.value) : gset string :=
  match room with
  | JS.Arr [] => dom (sockets st)
  | JS.Arr items => ⋃ (lodged st <$> items)
  | _ => lodged st room
  end.

(** [io.to(room).emit(e)].  The adapter passes over member ids that have no
    socket; in a reachable state there are none
    ([reachable_rooms_connected]). *)
Definition io_to (room : JS.value) (e : server_event) : handler () := λ st,
  (Some tt, st, deliver_all e (elements (addressed st room))).

(** [socket.to(room).emit(e)]: the broadcast excludes the room named by
    the socket's id, which holds the socket itself. *)
Definition socket_to (sid room : string) (e : server_event) : handler () :=
  λ st, (Some tt, st, deliver_all e (elements (members st room ∖ members st sid))).

(** [socket.emit(e)] *)
Definition socket_emit (sid : string) (e : server_event) : handler () :=
  tell [Deliver sid e].

(** [Array.from(users.values())] *)
Definition roster (st : state) : list user := (map_to_list (users st)).*2.

Definition broadcastUserList : handler () :=
  st ← read; io_emit (user_list (roster st)).

Definition broadcastTypingUsers : handler () :=
  st ← read; io_emit (typing_users ((map_to_list (typingUsers st)).*2)).

(** [messages.push(m); if (messages.length > MAX_STORED_MESSAGES)
    messages.shift()] *)
Definition store_message (cfg : config) (m : message)
    (log : list message) : list message :=
  let log' := log ++ [m] in
  if Z.of_nat (length log') >? MAX_STORED_MESSAGES cfg then tail log' else log'.

(** ** The event handlers of [io.on('connection', (socket) => ...)]

    [sid] is [socket.id]; [callback] tells whether the handler's second
    argument is a function. *)

(** [socket.data.username || 'Anonymous'] *)
Definition username_of (d : socket_data) : string :=
  JS.String (JS.or (field (data_username d)) (JS.Str "Anonymous")).

(** [String(v || 'Anonymous').trim().slice(0, 50)], when the conversion
    returns. *)
Definition display_name (v : JS.value) : string :=
  JS.slice0 50 (JS.trim (JS.String (JS.or v (JS.Str "Anonymous")))).

(** [String(v || '').trim()], when the conversion returns. *)
Definition trimmed (v : JS.value) : string :=
  JS.trim (JS.String (JS.or v (JS.Str ""))).

(** [socket.on('user_join', (payload = {}, callback) => ...)] *)
Definition on_user_join (sid : string) (payload : JS.payload)
    (callback : bool) : handler () :=
  let payload := default_param payload in
  try_catch
    (name ← prop payload "username";
     s ← to_string (JS.or name (JS.Str "Anonymous"));
     let username := JS.slice0 50 (JS.trim s) in
     if decide (username = "") then
       call callback sid (AckError "Invalid username")
     else
       assign_username sid username;;
       update (set_users <[sid := {| user_id := sid; user_username := username |}]>);;
       r ← prop payload "room";
       (if JS.truthy r then
          room ← to_string r;
          socket_join sid room;;
          assign_room sid (Some room);;
          socket_to sid room (user_joined_room username sid room)
        else mret tt);;
       broadcastUserList;;
       io_emit (user_joined username sid);;
       call callback sid (AckOkId sid))
    (call callback sid (AckError "Server error")).

(** [socket.on('join_room', (room, callback) => ...)] *)
Definition on_join_room (sid : string) (room : JS.value)
    (callback : bool) : handler () :=
  try_catch
    (if negb (JS.truthy room) || negb (JS.is_string room) then
       call callback sid (AckError "Invalid room")
     else
       let r := JS.String room in
       socket_join sid r;;
       assign_room sid (Some r);;
       st ← read;
       let username := username_of (data_of st sid) in
       socket_to sid r (user_joined_room username sid r);;
       call callback sid AckOk)
    (call callback sid (AckError "Server error")).

(** [socket.on('leave_room', (room, callback) => ...)] *)
Definition on_leave_room (sid : string) (room : JS.value)
    (callback : bool) : handler () :=
  try_catch
    (if negb (JS.truthy room) || negb (JS.is_string room) then
       call callback sid (AckError "Invalid room")
     else
       let r := JS.String room in
       socket_leave sid r;;
       assign_room sid None;;
       st ← read;
       let username := username_of (data_of st sid) in
       socket_to sid r (user_left_room username sid r);;
       call callback sid AckOk)
    (call callback sid (AckError "Server error")).

(** [payload.room || socket.data.room || null] *)
Definition resolve_room (r : JS.value) (d : socket_data) : JS.value :=
  JS.or r (JS.or (field (data_room d)) JS.Null).

(** [io.to(room).emit(e)] when [room] is truthy, [io.emit(e)] otherwise. *)
Definition emit_scoped (room : JS.value) (e : server_event) : handler () :=
  if JS.truthy room then io_to room e else io_emit e.

(** [socket.on('send_message', (messageData = {}, ack) => ...)] *)
Definition on_send_message (cfg : config) (clk : clock) (sid : string)
    (messageData : JS.payload) (callback : bool) : handler () :=
  let messageData := default_param messageData in
  try_catch
    (t ← prop messageData "text";
     s ← to_string (JS.or t (JS.Str ""));
     let text := JS.trim s in
     if decide (text = "") then
       call callback sid (AckError "Empty message")
     else if Z.of_nat (String.length text) >? MAX_MESSAGE_LENGTH cfg then
       call callback sid (AckError "Message too long")
     else
       st ← read;
       let sender := username_of (data_of st sid) in
       let id := Date_now clk + random_1000 clk in
       let timestamp := toISOString clk in
       r ← prop messageData "room";
       let room := resolve_room r (data_of st sid) in
       let message :=
         {| msg_id := id; msg_text := text; msg_sender := sender;
            msg_senderId := sid; msg_timestamp := timestamp;
            msg_room := room; msg_isPrivate := false |} in
       update (set_messages (store_message cfg message));;
       emit_scoped room (receive_message message);;
       call callback sid (AckOkMessage id timestamp))
    (call callback sid (AckError "Server error")).

(** [socket.on('private_message', (payload = {}, ack) => ...)] *)
Definition on_private_message (clk : clock) (sid : string)
    (payload : JS.payload) (callback : bool) : handler () :=
  let payload := default_param payload in
  try_catch
    (t ← prop payload "to";
     s ← to_string (JS.or t (JS.Str ""));
     let to := JS.trim s in
     x ← prop payload "text";
     s' ← to_string (JS.or x (JS.Str ""));
     let text := JS.trim s' in
     if decide (to = "" ∨ text = "") then
       call callback sid (AckError "Invalid payload")
     else
       st ← read;
       if decide (is_Some (users st !! to)) then
         let sender := username_of (data_of st sid) in
         let id := Date_now clk + random_1000 clk in
         let timestamp := toISOString clk in
         let message :=
           {| pm_id := id; pm_text := text; pm_sender := sender;
              pm_senderId := sid; pm_recipientId := to;
              pm_timestamp := timestamp; pm_isPrivate := true |} in
         io_to (JS.Str to) (private_message message);;
         socket_emit sid (private_message message);;
         call callback sid (AckOkMessage id timestamp)
       else
         call callback sid (AckError "Recipient not connected"))
    (call callback sid (AckError "Server error")).

(** [socket.on('typing', (payload = {}) => ...)]; its [catch] only logs. *)
Definition on_typing (sid : string) (payload : JS.payload) : handler () :=
  let payload := default_param payload in
  try_catch
    (t ← prop payload "isTyping";
     let isTyping := JS.truthy t in
     st ← read;
     r ← prop payload "room";
     let room := resolve_room r (data_of st sid) in
     let username := username_of (data_of st sid) in
     update (set_typingUsers
       (if isTyping then <[sid := username]> else delete sid));;
     if JS.truthy room then
       st' ← read;
       let roomSockets := elements (lodged st' room) in
       let typingInRoom := omap (λ id, typingUsers st' !! id) roomSockets in
       io_to room (typing_users typingInRoom)
     else broadcastTypingUsers)
    (mret tt).

(** [socket.on('read_message', (payload = {}) => ...)] *)
Definition on_read_message (clk : clock) (sid : string)
    (payload : JS.payload) : handler () :=
  let payload := default_param payload in
  try_catch
    (messageId ← prop payload "messageId";
     st ← read;
     let username := username_of (data_of st sid) in
     if JS.truthy messageId then
       r ← prop payload "room";
       let room := resolve_room r (data_of st sid) in
       let receipt :=
         {| rc_messageId := messageId; rc_readerId := sid;
            rc_username := username; rc_timestamp := toISOString clk |} in
       emit_scoped room (message_read receipt)
     else mret tt)
    (mret tt).

(** [socket.on('disconnect', (reason) => ...)] *)
Definition on_disconnect (sid reason : string) : handler () :=
  try_catch
    (st ← read;
     (match users st !! sid with
      | Some meta => io_emit (user_left (user_username meta) sid reason)
      | None => mret tt
      end);;
     update (set_users (delete sid));;
     update (set_typingUsers (delete sid));;
     broadcastUserList;;
     broadcastTypingUsers)
    (mret tt).

(** ** The server as a transition system *)

(** What a client (or the transport) can make happen. *)
Inductive client_event : Type :=
| Connect (sid : string)
| UserJoin (sid : string) (payload : JS.payload) (callback : bool)
| JoinRoom (sid : string) (room : JS.value) (callback : bool)
| LeaveRoom (sid : string) (room : JS.value) (callback : bool)
| SendMessage (clk : clock) (sid : string) (messageData : JS.payload)
    (callback : bool)
| PrivateMessage (clk : clock) (sid : string) (payload : JS.payload)
    (callback : bool)
| Typing (sid : string) (payload : JS.payload)
| ReadMessage (clk : clock) (sid : string) (payload : JS.payload)
| Disconnect (sid reason : string).

Definition connected (st : state) (sid : string) : Prop :=
  is_Some (sockets st !! sid).

(** A new socket has empty [data] and sits in the room named by its id. *)
Definition accept (sid : string) (st : state) : state :=
  set_rooms (adapter_add sid sid) (set_sockets <[sid := fresh_data]> st).

(** A closing socket leaves all rooms and the namespace before its
    [disconnect] listener runs. *)
Definition close (sid : string) (st : state) : state :=
  set_rooms (adapter_delAll sid) (set_sockets (delete sid) st).

Definition on_event (sid : string) (h : handler ())
    (st : state) : state * list effect :=
  if decide (connected st sid) then exec h st else (st, []).

Definition step (cfg : config) (st : state) (ev : client_event)
    : state * list effect :=
  match ev with
  | Connect sid =>
      if decide (connected st sid) then (st, []) else (accept sid st, [])
  | UserJoin sid p cb => on_event sid (on_user_join sid p cb) st
  | JoinRoom sid r cb => on_event sid (on_join_room sid r cb) st
  | LeaveRoom sid r cb => on_event sid (on_leave_room sid r cb) st
  | SendMessage clk sid p cb =>
      on_event sid (on_send_message cfg clk sid p cb) st
  | PrivateMessage clk sid p cb =>
      on_event sid (on_private_message clk sid p cb) st
  | Typing sid p => on_event sid (on_typing sid p) st
  | ReadMessage clk sid p => on_event sid (on_read_message clk sid p) st
  | Disconnect sid reason =>
      if decide (connected st sid)
      then exec (on_disconnect sid reason) (close sid st)
      else (st, [])
  end.

(** Running a trace of events from a state, collecting all effects. *)
Fixpoint run (cfg : config) (st : state) (evs : list client_event)
    : state * list effect :=
  match evs with
  | [] => (st, [])
  | ev :: evs' =>
      let '(st1, out1) := step cfg st ev in
      let '(st2, out2) := run cfg st1 evs' in
      (st2, out1 ++ out2)
  end.

Definition reachable (cfg : config) (st : state) : Prop :=
  ∃ evs, (run cfg initial evs).1 = st.

(** ** Observations on effects *)

(** The acknowledgments among the effects, in order. *)
Definition acks (out : list effect) : list ack :=
  omap (λ e, match e with
             | Acknowledge _ a => Some a
             | Deliver _ _ => None
             end) out.

(** The callback invocations among the effects, each with the socket whose
    callback it is. *)
Definition invocations (out : list effect) : list (string * ack) :=
  omap (λ e, match e with
             | Acknowledge caller a => Some (caller, a)
             | Deliver _ _ => None
             end) out.

(** The deliveries among the effects, in order. *)
Definition deliveries (out : list effect) : list (string * server_event) :=
  omap (λ e, match e with
             | Deliver to e => Some (to, e)
             | Acknowledge _ _ => None
             end) out.

(** The object the [send_message] handler builds from an object payload. *)
Definition built_message (clk : clock) (st : state) (sid : string)
    (props : list (string * JS.value)) : message :=
  {| msg_id := Date_now clk + random_1000 clk;
     msg_text := trimmed (JS.get props "text");
     msg_sender := username_of (data_of st sid);
     msg_senderId := sid;
     msg_timestamp := toISOString clk;
     msg_room := resolve_room (JS.get props "room") (data_of st sid);
     msg_isPrivate := false |}.

(** The object the [private_message] handler builds. *)
Definition built_private (clk : clock) (st : state) (sid : string)
    (props : list (string * JS.value)) : private_msg :=
  {| pm_id := Date_now clk + random_1000 clk;
     pm_text := trimmed (JS.get props "text");
     pm_sender := username_of (data_of st sid);
     pm_senderId := sid;
     pm_recipientId := trimmed (JS.get props "to");
     pm_timestamp := toISOString clk;
     pm_isPrivate := true |}.

(** The state after the [user_join] handler has recorded a name. *)
Definition identify (sid username : string) (st : state) : state :=
  set_users <[sid := {| user_id := sid; user_username := username |}]>
    (set_sockets (alter (λ d,
       {| data_username := Some username; data_room := data_room d |}) sid) st).

(** The state after [socket.join(room); socket.data.room = room]. *)
Definition enter (sid room : string) (st : state) : state :=
  set_sockets (alter (λ d,
     {| data_username := data_username d; data_room := Some room |}) sid)
    (set_rooms (adapter_add sid room) st).

(** The state after [socket.leave(room); delete socket.data.room]. *)
Definition leave (sid room : string) (st : state) : state :=
  set_sockets (alter (λ d,
     {| data_username := data_username d; data_room := None |}) sid)
    (set_rooms (adapter_del sid room) st).

(** The sockets a room-or-global emit reaches. *)
Definition scope (st : state) (room : JS.value) : gset string :=
  if JS.truthy room then addressed st room else dom (sockets st).

(** The acknowledgment effect, when a callback was supplied. *)
Definition acked (callback : bool) (caller : string) (a : ack) : list effect :=
  if callback then [Acknowledge caller a] else [].

(** The log after the messages [ms] were stored one after the other,
    starting from the empty log. *)
Definition stored (cfg : config) (ms : list message) : list message :=
  fold_left (λ log m, store_message cfg m log) ms [].

(** The socket an event comes from. *)
Definition actor (ev : client_event) : string :=
  match ev with
  | Connect sid | UserJoin sid _ _ | JoinRoom sid _ _ | LeaveRoom sid _ _
  | SendMessage _ sid _ _ | PrivateMessage _ sid _ _ | Typing sid _
  | ReadMessage _ sid _ | Disconnect sid _ => sid
  end.

(** Only connected sockets sit in rooms, and only connected sockets are
    registered in [users]. *)
Definition rooms_connected (st : state) : Prop :=
  ∀ r id, id ∈ members st r → connected st id.

Definition users_connected (st : state) : Prop :=
  ∀ id, is_Some (users st !! id) → connected st id.

(** Every entry of [users] carries the key it is stored under as its id. *)
Definition users_keyed (m : gmap string user) : Prop :=
  ∀ k u, m !! k = Some u → user_id u = k.

(** The entries of a roster that belong to the connection [sid]. *)
Definition entries_of (sid : string) (l : list user) : list user :=
  filter (λ u, user_id u = sid) l.

(** The entries of a roster that show the display name [name]. *)
Definition entries_named (name : string) (l : list user) : list user :=
  filter (λ u, user_username u = name) l.

(** The error texts the handlers acknowledge with. *)
Definition known_errors : list string :=
  [ "Invalid username"; "Invalid room"; "Empty message"; "Message too long";
    "Invalid payload"; "Recipient not connected"; "Server error" ].

Definition known_ack (a : ack) : Prop :=
  match a with AckError e => e ∈ known_errors | _ => True end.

(** ** The HTTP routes *)

(** [app.get('/api/messages', ...)] and [app.get('/api/users', ...)]: what
    the two routes answer with. *)
Definition api_messages (st : state) : list message := messages st.
Definition api_users (st : state) : list user := roster st.

(** What the checks of the [send_message] handler let into the log. *)
Definition admissible (cfg : config) (m : message) : Prop :=
  msg_text m ≠ ""
  ∧ Z.of_nat (String.length (msg_text m)) ≤ MAX_MESSAGE_LENGTH cfg
  ∧ msg_sender m ≠ ""
  ∧ msg_isPrivate m = false
  ∧ (msg_room m = JS.Null ∨ JS.truthy (msg_room m) = true).

(** The sockets that receive something, in order. *)
Definition recipients (out : list effect) : list string := (deliveries out).*1.

(** ** The chat page of the client (client/src/pages/Chat.jsx and the
    message list it renders) *)

Module Client.

(** [addMessage]: [const out = [...prev, m]; return out.slice(-500)] *)
Definition addMessage {A} (prev : list A) (m : A) : list A :=
  let out := prev ++ [m] in
  drop (length out - 500) out.

(** The properties of a message object that the message list looks at;
    [None] is a property that is absent. *)
Record entry : Type := Entry {
  system : bool;                 (* [!!m.system] *)
  private : bool;                (* [!!m.private] *)
  senderId : option string;
  recipientId : option string;
  sender : string
}.

(** The state [selectedPrivate]: [null], or the id of a user. *)
Definition selected (selectedPrivate : option string) : bool :=
  match selectedPrivate with
  | Some id => if decide (id = "") then false else true
  | None => false
  end.

(** The predicate of [messages.filter(...)] in the message list. *)
Definition visible (currentUser : string) (selectedPrivate : option string)
    (m : entry) : bool :=
  if system m then negb (selected selectedPrivate)
  else if negb (selected selectedPrivate) then negb (private m)
  else if negb (private m) then false
  else bool_decide (senderId m = selectedPrivate)
       || bool_decide (recipientId m = selectedPrivate)
       || bool_decide (sender m = currentUser).

(** The entries the page adds for the events it listens to: the handlers of
    [receive_message], [private_message], [user_joined] and [user_left]. *)
Definition entry_of (e : server_event) : option entry :=
  match e with
  | receive_message m =>
      Some {| system := false; private := false;
              senderId := Some (msg_senderId m); recipientId := None;
              sender := msg_sender m |}
  | private_message m =>
      Some {| system := false; private := true;
              senderId := Some (pm_senderId m);
              recipientId := Some (pm_recipientId m);
              sender := pm_sender m |}
  | user_joined _ _ | user_left _ _ _ =>
      Some {| system := true; private := false; senderId := None;
              recipientId := None; sender := "System" |}
  | _ => None
  end.

End Client.

(** ** The arguments of a listener

    Socket.io calls the listener of an event with the values the client
    gave to its [emit], in order, and after them, when the client passed an
    acknowledgment callback as the last argument of its [emit], with the
    function that answers this callback.  The listeners of server.js name
    two parameters, which are bound to the first two of these arguments; a
    parameter that has no argument is [undefined]. *)

Inductive argument (D : Type) : Type :=
| Sent (d : D)                 (* a value given by the client *)
| AckFunction.                 (* the function for the client's callback *)

(** The arguments for [emit(event, ...data)], and for
    [emit(event, ...data, callback)] when [ack] is set. *)
Definition arguments {D} (data : list D) (ack : bool) : list (argument D) :=
  (Sent D <$> data) ++ (if ack then [AckFunction D] else []).

(** A parameter in payload position.  The acknowledgment function is an
    object without any of the properties the handlers read. *)
Definition payload_of (a : option (argument JS.payload)) : JS.payload :=
  match a with
  | None => JS.NoPayload
  | Some (Sent _ p) => p
  | Some (AckFunction _) => JS.Object []
  end.

(** The parameter [room] of [join_room] and [leave_room].  The
    acknowledgment function is truthy and is not a string. *)
Definition room_of (a : option (argument JS.value)) : JS.value :=
  match a with
  | None => JS.Undefined
  | Some (Sent _ v) => v
  | Some (AckFunction _) => JS.Other true "function () { }"
  end.

(** [typeof callback === 'function']: a value given by the client is never
    a function. *)
Definition is_function {D} (a : option (argument D)) : bool :=
  match a with
  | Some (AckFunction _) => true
  | _ => false
  end.

(** The five acknowledging listeners, called with a list of arguments. *)
Definition listen_user_join (sid : string)
    (args : list (argument JS.payload)) : handler () :=
  on_user_join sid (payload_of (args !! 0%nat)) (is_function (args !! 1%nat)).

Definition listen_join_room (sid : string)
    (args : list (argument JS.value)) : handler () :=
  on_join_room sid (room_of (args !! 0%nat)) (is_function (args !! 1%nat)).

Definition listen_leave_room (sid : string)
    (args : list (argument JS.value)) : handler () :=
  on_leave_room sid (room_of (args !! 0%nat)) (is_function (args !! 1%nat)).

Definition listen_send_message (cfg : config) (clk : clock) (sid : string)
    (args : list (argument JS.payload)) : handler () :=
  on_send_message cfg clk sid (payload_of (args !! 0%nat))
    (is_function (args !! 1%nat)).

Definition listen_private_message (clk : clock) (sid : string)
    (args : list (argument JS.payload)) : handler () :=
  on_private_message clk sid (payload_of (args !! 0%nat))
    (is_function (args !! 1%nat)).

(** The callback of socket [sid] is invoked exactly once, and no other
    callback is; no callback is invoked at all. *)
Definition invoked_once (sid : string) (out : list effect) : Prop :=
  ∃ a, invocations out = [(sid, a)].

Definition never_invoked (out : list effect) : Prop := invocations out = [].

(** ** Scenarios *)

Definition noon : clock :=
  {| Date_now := 1700000000000; random_1000 := 7;
     toISOString := "2023-11-14T22:13:20.000Z" |}.

(** One connection that has not announced a name. *)
Definition fresh : state :=
  (run default_config initial [Connect "s1"]).1.

(** Alice, Bob and Carol have announced their names; Bob sits in room A,
    Carol in room B, and Alice has joined room A. *)
Definition lobby_trace : list client_event :=
  [ Connect "s1"; Connect "s2"; Connect "s3";
    UserJoin "s1" (JS.Object [("username", JS.Str "Alice")]) true;
    UserJoin "s2" (JS.Object [("username", JS.Str "Bob")]) true;
    UserJoin "s3" (JS.Object [("username", JS.Str "Carol")]) true;
    JoinRoom "s2" (JS.Str "A") false;
    JoinRoom "s3" (JS.Str "B") false;
    JoinRoom "s1" (JS.Str "A") true ].

Definition lobby : state := (run default_config initial lobby_trace).1.

(** Alice and Bob have announced their names; a third connection has joined
    the room that is named by Bob's socket id. *)
Definition listening_trace : list client_event :=
  [ Connect "s1"; Connect "s2"; Connect "s3";
    UserJoin "s1" (JS.Object [("username", JS.Str "Alice")]) true;
    UserJoin "s2" (JS.Object [("username", JS.Str "Bob")]) true;
    JoinRoom "s3" (JS.Str "s2") true ].

Definition listening : state :=
  (run default_config initial listening_trace).1.

(** Alice and Bob have announced their names, and Alice has then joined
    room A. *)
Definition seated_trace : list client_event :=
  [ Connect "s1"; Connect "s2";
    UserJoin "s1" (JS.Object [("username", JS.Str "Alice")]) true;
    UserJoin "s2" (JS.Object [("username", JS.Str "Bob")]) true;
    JoinRoom "s1" (JS.Str "A") true ].

Definition seated : state := (run default_config initial seated_trace).1.

(** A configuration that keeps two messages of at most five characters. *)
Definition tiny_config : config := load_config (Some 2) (Some 5).

Definition note (n : Z) : message :=
  {| msg_id := n; msg_text := "x"; msg_sender := "Anonymous";
     msg_senderId := "s1"; msg_timestamp := ""; msg_room := JS.Null;
     msg_isPrivate := false |}.

(** ** Basic facts *)

Lemma acks_app (o1 o2 : list effect) : acks (o1 ++ o2) = acks o1 ++ acks o2.
Proof. apply omap_app. Qed.

Lemma acks_deliver_all (e : server_event) (ids : list string) :
  acks (deliver_all e ids) = [].
Proof. induction ids as [|i ids IH]; [done | exact IH]. Qed.

Lemma invocations_app (o1 o2 : list effect) :
  invocations (o1 ++ o2) = invocations o1 ++ invocations o2.
Proof. apply omap_app. Qed.

Lemma invocations_deliver_all (e : server_event) (ids : list string) :
  invocations (deliver_all e ids) = [].
Proof. induction ids as [|i ids IH]; [done | exact IH]. Qed.

Lemma acks_invocations (out : list effect) : acks out = (invocations out).*2.
Proof.
  induction out as [|[to e|caller a] out IH]; cbn; [done | exact IH |].
  f_equal. exact IH.
Qed.

Lemma deliveries_app (o1 o2 : list effect) :
  deliveries (o1 ++ o2) = deliveries o1 ++ deliveries o2.
Proof. apply omap_app. Qed.

Lemma deliveries_deliver_all (e : server_event) (ids : list string) :
  deliveries (deliver_all e ids) = (λ id, (id, e)) <$> ids.
Proof. induction ids as [|i ids IH]; [done | cbn; by rewrite <- IH]. Qed.

(** Unfolds one handler invocation down to states and effect lists. *)
Ltac run_handler :=
  unfold exec, on_event, try_catch, emit_scoped, broadcastUserList,
    broadcastTypingUsers, socket_emit, socket_to, io_to, io_emit,
    socket_join, socket_leave, assign_room, assign_username, call, prop,
    to_string, default_param, tell, update, read, throw,
    mbind, handler_bind, mret, handler_ret;
  cbn [fst snd].

(** Case analysis on the tests a handler body makes. *)
Ltac handler_cases :=
  repeat (match goal with
          | |- context [negb ?a || negb ?b] => destruct (negb a || negb b) eqn:?
          | |- context [decide _] => case_decide
          | |- context [JS.printable ?v] => destruct (JS.printable v) eqn:?
          | |- context [JS.truthy ?v] => destruct (JS.truthy v) eqn:?
          | |- context [?a >? ?b] => destruct (a >? b) eqn:?
          end; cbn).

Ltac acks_simpl :=
  repeat (rewrite ?acks_app, ?acks_deliver_all, ?invocations_app,
            ?invocations_deliver_all, ?app_nil_r;
          cbn [acks invocations omap app]).

Section AckOnce.
Variables (cfg : config) (clk : clock) (st : state) (sid : string).

Lemma user_join_acks (p : JS.payload) :
  ∃ a, invocations (exec (on_user_join sid p true) st).2 = [(sid, a)].
Proof.
  unfold on_user_join.
  destruct p as [| |props]; run_handler; cbn;
    handler_cases; acks_simpl; eauto.
Qed.

Lemma join_room_acks (room : JS.value) :
  ∃ a, invocations (exec (on_join_room sid room true) st).2 = [(sid, a)].
Proof.
  unfold on_join_room. run_handler. handler_cases; acks_simpl; eauto.
Qed.

Lemma leave_room_acks (room : JS.value) :
  ∃ a, invocations (exec (on_leave_room sid room true) st).2 = [(sid, a)].
Proof.
  unfold on_leave_room. run_handler. handler_cases; acks_simpl; eauto.
Qed.

Lemma send_message_acks (p : JS.payload) :
  ∃ a, invocations (exec (on_send_message cfg clk sid p true) st).2
       = [(sid, a)].
Proof.
  unfold on_send_message.
  destruct p as [| |props]; run_handler; cbn;
    handler_cases; acks_simpl; eauto.
Qed.

Lemma private_message_acks (p : JS.payload) :
  ∃ a, invocations (exec (on_private_message clk sid p true) st).2
       = [(sid, a)].
Proof.
  unfold on_private_message.
  destruct p as [| |props]; run_handler; cbn;
    handler_cases; acks_simpl; eauto.
Qed.
End AckOnce.

(** Without a function in second position no callback is invoked. *)
Section AckNever.
Variables (cfg : config) (clk : clock) (st : state) (sid : string).

Lemma user_join_silent (p : JS.payload) :
  invocations (exec (on_user_join sid p false) st).2 = [].
Proof.
  unfold on_user_join.
  destruct p as [| |props]; run_handler; cbn;
    handler_cases; acks_simpl; done.
Qed.

Lemma join_room_silent (room : JS.value) :
  invocations (exec (on_join_room sid room false) st).2 = [].
Proof.
  unfold on_join_room. run_handler. handler_cases; acks_simpl; done.
Qed.

Lemma leave_room_silent (room : JS.value) :
  invocations (exec (on_leave_room sid room false) st).2 = [].
Proof.
  unfold on_leave_room. run_handler. handler_cases; acks_simpl; done.
Qed.

Lemma send_message_silent (p : JS.payload) :
  invocations (exec (on_send_message cfg clk sid p false) st).2 = [].
Proof.
  unfold on_send_message.
  destruct p as [| |props]; run_handler; cbn;
    handler_cases; acks_simpl; done.
Qed.

Lemma private_message_silent (p : JS.payload) :
  invocations (exec (on_private_message clk sid p false) st).2 = [].
Proof.
  unfold on_private_message.
  destruct p as [| |props]; run_handler; cbn;
    handler_cases; acks_simpl; done.
Qed.

(** The callback reaches the second parameter only behind one value. *)
Lemma second_argument {D} (data : list D) (ack : bool) :
  is_function (arguments data ack !! 1%nat)
  = ack && bool_decide (length data = 1%nat).
Proof.
  destruct data as [|d [|d' data]], ack; done.
Qed.

Lemma first_argument {D} (d : D) (ack : bool) :
  arguments [d] ack !! 0%nat = Some (Sent D d).
Proof. done. Qed.
End AckNever.

(** ** Strings: [trim] and [slice] *)

Section Strings.
Import JS.

Lemma rev_app_empty (s t : string) :
  String.rev_app s t = "" ↔ s = "" ∧ t = "".
Proof.
  revert t. induction s as [|c s IH]; intros t; cbn.
  - intuition congruence.
  - rewrite IH. intuition congruence.
Qed.

Lemma rev_empty (s : string) : String.rev s = "" ↔ s = "".
Proof. unfold String.rev. rewrite rev_app_empty. intuition congruence. Qed.

Lemma blank_rev_app (s t : string) :
  blank (String.rev_app s t) = blank s && blank t.
Proof.
  revert t. induction s as [|c s IH]; intros t; cbn; [done|].
  rewrite IH. cbn. destruct (is_white_space c), (blank s); done.
Qed.

Lemma blank_rev (s : string) : blank (String.rev s) = blank s.
Proof. unfold String.rev. rewrite blank_rev_app. cbn. apply andb_true_r. Qed.

Lemma trimStart_empty (s : string) : trimStart s = "" ↔ blank s = true.
Proof.
  induction s as [|c s IH]; cbn; [done|].
  destruct (is_white_space c); cbn; [done|]. split; discriminate.
Qed.

Lemma blank_trimStart (s : string) : blank (trimStart s) = blank s.
Proof.
  induction s as [|c s IH]; cbn; [done|].
  destruct (is_white_space c) eqn:E; cbn; [done|]. by rewrite E.
Qed.

(** A string trims to the empty string exactly when it is blank. *)
Lemma trim_empty (s : string) : trim s = "" ↔ blank s = true.
Proof.
  unfold trim, trimEnd.
  by rewrite rev_empty, trimStart_empty, blank_rev, blank_trimStart.
Qed.

Lemma slice0_empty (n : nat) (s : string) :
  slice0 (S n) s = "" ↔ s = "".
Proof. destruct s; cbn; intuition congruence. Qed.

Lemma slice0_length (n : nat) (s : string) :
  (String.length (slice0 n s) ≤ n)%nat.
Proof.
  unfold slice0. revert s.
  induction n as [|n IH]; intros [|c s]; cbn; try lia.
  specialize (IH s). lia.
Qed.

Lemma slice0_short (n : nat) (s : string) :
  (String.length s ≤ n)%nat → slice0 n s = s.
Proof.
  unfold slice0. revert s.
  induction n as [|n IH]; intros [|c s]; cbn; intros; try done; try lia.
  f_equal. apply IH. lia.
Qed.

(** [x || 'Anonymous'] never stringifies to a blank unless [x] is truthy
    and blank itself. *)
Lemma or_default_blank (v : value) :
  blank (String (or v (Str "Anonymous"))) = true
  ↔ truthy v = true ∧ blank (String v) = true.
Proof.
  unfold or. destruct (truthy v) eqn:E; [intuition congruence|].
  cbn. intuition congruence.
Qed.
End Strings.

(** ** What each handler does, case by case *)

Lemma printable_or (v d : JS.value) :
  JS.printable v = true → JS.printable d = true →
  JS.printable (JS.or v d) = true.
Proof. unfold JS.or. by destruct (JS.truthy v). Qed.

Lemma unprintable_or (v d : JS.value) :
  JS.printable v = false → JS.printable (JS.or v d) = false.
Proof. unfold JS.or. by destruct v. Qed.

Section SendMessage.
Variables (cfg : config) (clk : clock) (st : state) (sid : string).
Variables (props : list (string * JS.value)) (callback : bool).

Let text := trimmed (JS.get props "text").

Lemma send_message_fault :
  JS.printable (JS.get props "text") = false →
  exec (on_send_message cfg clk sid (JS.Object props) callback) st
    = (st, acked callback sid (AckError "Server error")).
Proof.
  intros P. unfold on_send_message. run_handler. cbn.
  rewrite unprintable_or by done. by destruct callback.
Qed.

Lemma send_message_empty :
  JS.printable (JS.get props "text") = true → text = "" →
  exec (on_send_message cfg clk sid (JS.Object props) callback) st
    = (st, acked callback sid (AckError "Empty message")).
Proof.
  subst text. unfold trimmed. intros P E.
  unfold on_send_message. run_handler. cbn.
  rewrite printable_or by done. cbn. rewrite E. by destruct callback.
Qed.

Lemma send_message_rejected_long :
  JS.printable (JS.get props "text") = true →
  text ≠ "" → MAX_MESSAGE_LENGTH cfg < Z.of_nat (String.length text) →
  exec (on_send_message cfg clk sid (JS.Object props) callback) st
    = (st, acked callback sid (AckError "Message too long")).
Proof.
  subst text. unfold trimmed. intros P E L.
  unfold on_send_message. run_handler. cbn.
  rewrite printable_or by done. cbn.
  case_decide; [done|]. cbn.
  destruct (_ >? _) eqn:G; [by destruct callback | lia].
Qed.

Lemma send_message_accepted :
  JS.printable (JS.get props "text") = true →
  text ≠ "" → Z.of_nat (String.length text) ≤ MAX_MESSAGE_LENGTH cfg →
  let m := built_message clk st sid props in
  exec (on_send_message cfg clk sid (JS.Object props) callback) st
    = (set_messages (store_message cfg m) st,
       deliver_all (receive_message m) (elements (scope st (msg_room m)))
         ++ acked callback sid (AckOkMessage (msg_id m) (msg_timestamp m))).
Proof.
  subst text. unfold trimmed. intros P E L.
  unfold on_send_message. run_handler. cbn.
  rewrite printable_or by done. cbn.
  case_decide; [done|]. cbn.
  destruct (_ >? _) eqn:G; [lia|]. cbn.
  unfold scope, built_message, trimmed. cbn.
  destruct (JS.truthy _); destruct callback; cbn; by rewrite ?app_nil_r.
Qed.
End SendMessage.

Section PrivateMessage.
Variables (clk : clock) (st : state) (sid : string).
Variables (props : list (string * JS.value)) (callback : bool).

Let to := trimmed (JS.get props "to").
Let text := trimmed (JS.get props "text").

Lemma private_message_fault :
  JS.printable (JS.get props "to") = false
  ∨ JS.printable (JS.get props "text") = false →
  exec (on_private_message clk sid (JS.Object props) callback) st
    = (st, acked callback sid (AckError "Server error")).
Proof.
  intros P. unfold on_private_message. run_handler. cbn.
  destruct (JS.printable (JS.or (JS.get props "to") _)) eqn:P1; cbn;
    [|by destruct callback].
  destruct P as [P|P].
  - by rewrite unprintable_or in P1.
  - rewrite unprintable_or by done. by destruct callback.
Qed.

Lemma private_message_invalid :
  JS.printable (JS.get props "to") = true →
  JS.printable (JS.get props "text") = true →
  to = "" ∨ text = "" →
  exec (on_private_message clk sid (JS.Object props) callback) st
    = (st, acked callback sid (AckError "Invalid payload")).
Proof.
  subst to text. unfold trimmed. intros P1 P2 E.
  unfold on_private_message. run_handler. cbn.
  rewrite !printable_or by done. cbn.
  case_decide; [|done]. by destruct callback.
Qed.

Lemma private_message_unknown_recipient :
  JS.printable (JS.get props "to") = true →
  JS.printable (JS.get props "text") = true →
  to ≠ "" → text ≠ "" → users st !! to = None →
  exec (on_private_message clk sid (JS.Object props) callback) st
    = (st, acked callback sid (AckError "Recipient not connected")).
Proof.
  subst to text. unfold trimmed. intros P1 P2 E1 E2 N.
  unfold on_private_message. run_handler. cbn.
  rewrite !printable_or by done. cbn.
  case_decide; [tauto|]. cbn.
  case_decide as S; [rewrite N in S; by destruct S|].
  by destruct callback.
Qed.

Lemma private_message_accepted :
  JS.printable (JS.get props "to") = true →
  JS.printable (JS.get props "text") = true →
  to ≠ "" → text ≠ "" → is_Some (users st !! to) →
  let m := built_private clk st sid props in
  exec (on_private_message clk sid (JS.Object props) callback) st
    = (st,
       deliver_all (private_message m) (elements (members st to))
         ++ [Deliver sid (private_message m)]
         ++ acked callback sid (AckOkMessage (pm_id m) (pm_timestamp m))).
Proof.
  subst to text. unfold trimmed. intros P1 P2 E1 E2 S.
  unfold on_private_message. run_handler. cbn.
  rewrite !printable_or by done. cbn.
  case_decide; [tauto|]. cbn.
  case_decide; [|done]. by destruct callback.
Qed.
End PrivateMessage.

Section UserJoin.
Variables (st : state) (sid : string).
Variables (props : list (string * JS.value)) (callback : bool).

Let username := display_name (JS.get props "username").
Let r := JS.get props "room".

Lemma user_join_fault :
  JS.printable (JS.get props "username") = false →
  exec (on_user_join sid (JS.Object props) callback) st
    = (st, acked callback sid (AckError "Server error")).
Proof.
  intros P. unfold on_user_join. run_handler. cbn.
  rewrite unprintable_or by done. by destruct callback.
Qed.

Lemma user_join_invalid :
  JS.printable (JS.get props "username") = true → username = "" →
  exec (on_user_join sid (JS.Object props) callback) st
    = (st, acked callback sid (AckError "Invalid username")).
Proof.
  subst username. unfold display_name. intros P E.
  unfold on_user_join. run_handler. cbn.
  rewrite printable_or by done. cbn. rewrite E. by destruct callback.
Qed.

(** A room that cannot be converted to a string makes the handler throw
    after the name has been recorded. *)
Lemma user_join_room_fault :
  JS.printable (JS.get props "username") = true → username ≠ "" →
  JS.printable r = false →
  exec (on_user_join sid (JS.Object props) callback) st
    = (identify sid username st, acked callback sid (AckError "Server error")).
Proof.
  subst username r. unfold display_name. intros P E Pr.
  unfold on_user_join. run_handler. cbn.
  rewrite printable_or by done. cbn.
  case_decide; [done|]. cbn.
  assert (JS.truthy (JS.get props "room") = true) as ->
    by by destruct (JS.get props "room").
  rewrite Pr. by destruct callback.
Qed.

Lemma user_join_accepted :
  JS.printable (JS.get props "username") = true → username ≠ "" →
  JS.printable r = true →
  let st1 := identify sid username st in
  let st2 := if JS.truthy r then enter sid (JS.String r) st1 else st1 in
  exec (on_user_join sid (JS.Object props) callback) st
    = (st2,
       (if JS.truthy r then
          deliver_all (user_joined_room username sid (JS.String r))
            (elements (members st2 (JS.String r) ∖ members st2 sid))
        else [])
         ++ deliver_all (user_list (roster st2)) (elements (dom (sockets st2)))
         ++ deliver_all (user_joined username sid) (elements (dom (sockets st2)))
         ++ acked callback sid (AckOkId sid)).
Proof.
  subst username r. unfold display_name. intros P E Pr.
  unfold on_user_join. run_handler. cbn.
  rewrite printable_or by done. cbn.
  case_decide; [done|]. cbn.
  destruct (JS.truthy _); cbn; rewrite ?Pr; destruct callback; cbn;
    by rewrite <- ?app_assoc, ?app_nil_r.
Qed.
End UserJoin.

Section Rooms.
Variables (st : state) (sid : string) (callback : bool).

Lemma join_room_invalid (room : JS.value) :
  JS.truthy room = false ∨ JS.is_string room = false →
  exec (on_join_room sid room callback) st
    = (st, acked callback sid (AckError "Invalid room")).
Proof.
  intros E. unfold on_join_room. run_handler.
  destruct (negb _ || negb _) eqn:G; cbn; [by destruct callback|].
  apply orb_false_elim in G as [?%negb_false_iff ?%negb_false_iff].
  destruct E; congruence.
Qed.

Lemma join_room_accepted (room : string) :
  room ≠ "" →
  let st' := enter sid room st in
  exec (on_join_room sid (JS.Str room) callback) st
    = (st',
       deliver_all (user_joined_room (username_of (data_of st' sid)) sid room)
         (elements (members st' room ∖ members st' sid))
         ++ acked callback sid AckOk).
Proof.
  intros E. unfold on_join_room. run_handler. cbn.
  case_decide; [done|]. by destruct callback.
Qed.

Lemma leave_room_invalid (room : JS.value) :
  JS.truthy room = false ∨ JS.is_string room = false →
  exec (on_leave_room sid room callback) st
    = (st, acked callback sid (AckError "Invalid room")).
Proof.
  intros E. unfold on_leave_room. run_handler.
  destruct (negb _ || negb _) eqn:G; cbn; [by destruct callback|].
  apply orb_false_elim in G as [?%negb_false_iff ?%negb_false_iff].
  destruct E; congruence.
Qed.

Lemma leave_room_accepted (room : string) :
  room ≠ "" →
  let st' := leave sid room st in
  exec (on_leave_room sid (JS.Str room) callback) st
    = (st',
       deliver_all (user_left_room (username_of (data_of st' sid)) sid room)
         (elements (members st' room ∖ members st' sid))
         ++ acked callback sid AckOk).
Proof.
  intros E. unfold on_leave_room. run_handler. cbn.
  case_decide; [done|]. by destruct callback.
Qed.
End Rooms.

Section Signals.
Variables (clk : clock) (st : state) (sid : string).
Variables (props : list (string * JS.value)).

Let room := resolve_room (JS.get props "room") (data_of st sid).

Lemma typing_processed :
  let st' :=
    set_typingUsers
      (if JS.truthy (JS.get props "isTyping")
       then <[sid := username_of (data_of st sid)]> else delete sid) st in
  exec (on_typing sid (JS.Object props)) st
    = (st',
       if JS.truthy room then
         deliver_all
           (typing_users
              (omap (λ id, typingUsers st' !! id) (elements (lodged st' room))))
           (elements (addressed st' room))
       else
         deliver_all (typing_users (map_to_list (typingUsers st')).*2)
           (elements (dom (sockets st')))).
Proof.
  subst room. unfold on_typing. run_handler. cbn.
  destruct (JS.truthy (resolve_room _ _)); cbn; by rewrite ?app_nil_r.
Qed.

Lemma read_message_processed :
  JS.truthy (JS.get props "messageId") = true →
  let receipt :=
    {| rc_messageId := JS.get props "messageId"; rc_readerId := sid;
       rc_username := username_of (data_of st sid);
       rc_timestamp := toISOString clk |} in
  exec (on_read_message clk sid (JS.Object props)) st
    = (st, deliver_all (message_read receipt) (elements (scope st room))).
Proof.
  subst room. intros T. unfold on_read_message. run_handler. cbn.
  rewrite T. cbn. unfold scope.
  destruct (JS.truthy (resolve_room _ _)); cbn; by rewrite ?app_nil_r.
Qed.

Lemma read_message_ignored :
  JS.truthy (JS.get props "messageId") = false →
  exec (on_read_message clk sid (JS.Object props)) st = (st, []).
Proof.
  intros T. unfold on_read_message. run_handler. cbn. by rewrite T.
Qed.
End Signals.

(** ** The room table and [socket.data] under join and leave *)

Section Adapter.
Variables (rs : gmap string (gset string)) (id : string).

Lemma lookup_adapter_add (room r : string) :
  default ∅ (adapter_add id room rs !! r)
    = if decide (room = r) then {[id]} ∪ default ∅ (rs !! r)
      else default ∅ (rs !! r).
Proof.
  unfold adapter_add. rewrite lookup_insert. by case_decide; subst.
Qed.

Lemma lookup_adapter_del (room r : string) :
  default ∅ (adapter_del id room rs !! r)
    = if decide (room = r) then default ∅ (rs !! r) ∖ {[id]}
      else default ∅ (rs !! r).
Proof.
  unfold adapter_del.
  destruct (rs !! room) as [ids|] eqn:E.
  - case_decide as D.
    + rewrite lookup_delete. case_decide; subst; [|done].
      rewrite E. cbn. by rewrite D.
    + rewrite lookup_insert. case_decide; subst; [|done]. by rewrite E.
  - case_decide; subst; [|done]. rewrite E. cbn.
    symmetry. apply subseteq_empty_difference_L, empty_subseteq.
Qed.

Lemma lookup_adapter_delAll (r : string) :
  default ∅ (adapter_delAll id rs !! r) = default ∅ (rs !! r) ∖ {[id]}.
Proof.
  unfold adapter_delAll. rewrite map_lookup_filter, lookup_fmap.
  destruct (rs !! r) as [ids|]; cbn.
  - case_guard as G; cbn.
    + done.
    + by rewrite G.
  - symmetry. apply subseteq_empty_difference_L, empty_subseteq.
Qed.
End Adapter.

Section Membership.
Variables (st : state) (sid : string).

Lemma members_enter (room r : string) :
  members (enter sid room st) r
    = if decide (room = r) then {[sid]} ∪ members st r else members st r.
Proof. apply lookup_adapter_add. Qed.

Lemma members_leave (room r : string) :
  members (leave sid room st) r
    = if decide (room = r) then members st r ∖ {[sid]} else members st r.
Proof. apply lookup_adapter_del. Qed.

Lemma data_of_enter (room : string) :
  connected st sid →
  data_of (enter sid room st) sid
    = {| data_username := data_username (data_of st sid);
         data_room := Some room |}.
Proof.
  intros [d E]. unfold data_of, enter. cbn.
  rewrite lookup_alter_eq, E. done.
Qed.

Lemma data_room_leave (room : string) :
  data_room (data_of (leave sid room st) sid) = None.
Proof.
  unfold data_of, leave. cbn. rewrite lookup_alter_eq.
  by destruct (sockets st !! sid).
Qed.

Lemma data_username_enter (room : string) :
  data_username (data_of (enter sid room st) sid)
    = data_username (data_of st sid).
Proof.
  unfold data_of, enter. cbn. rewrite lookup_alter_eq.
  by destruct (sockets st !! sid).
Qed.

Lemma data_username_leave (room : string) :
  data_username (data_of (leave sid room st) sid)
    = data_username (data_of st sid).
Proof.
  unfold data_of, leave. cbn. rewrite lookup_alter_eq.
  by destruct (sockets st !! sid).
Qed.

Lemma sockets_dom_leave (room : string) :
  dom (sockets (leave sid room st)) = dom (sockets st).
Proof. unfold leave. cbn. apply dom_alter_L. Qed.

Lemma sockets_dom_enter (room : string) :
  dom (sockets (enter sid room st)) = dom (sockets st).
Proof. unfold enter. cbn. apply dom_alter_L. Qed.
End Membership.

(** ** What a step can do to the stores *)

(** Unfolds a step down to the handler body and splits its cases. *)
Ltac step_cases :=
  unfold step, on_event, accept, close;
  repeat case_decide; try (left; reflexivity);
  unfold on_user_join, on_join_room, on_leave_room, on_send_message,
    on_private_message, on_typing, on_read_message, on_disconnect;
  repeat match goal with
         | p : JS.payload |- _ => destruct p
         | b : bool |- _ => destruct b
         end;
  run_handler; cbn; handler_cases;
  repeat match goal with
         | |- context [match users ?st !! ?sid with _ => _ end] =>
             destruct (users st !! sid); cbn
         end.

Lemma step_users (cfg : config) (st : state) (ev : client_event) :
  users (step cfg st ev).1 = users st
  ∨ (∃ sid name,
       users (step cfg st ev).1
         = <[sid := {| user_id := sid; user_username := name |}]> (users st))
  ∨ (∃ sid, users (step cfg st ev).1 = delete sid (users st)).
Proof.
  destruct ev; step_cases; eauto.
Qed.

Lemma step_messages (cfg : config) (st : state) (ev : client_event) :
  messages (step cfg st ev).1 = messages st
  ∨ ∃ m, messages (step cfg st ev).1 = store_message cfg m (messages st).
Proof.
  destruct ev; step_cases; eauto.
Qed.

Lemma run_snoc (cfg : config) (st : state) (evs : list client_event)
    (ev : client_event) :
  (run cfg st (evs ++ [ev])).1 = (step cfg (run cfg st evs).1 ev).1.
Proof.
  revert st. induction evs as [|e evs IH]; intros st; cbn.
  - by destruct (step cfg st ev).
  - destruct (step cfg st e) as [st1 out1]. specialize (IH st1).
    destruct (run cfg st1 (evs ++ [ev])), (run cfg st1 evs). exact IH.
Qed.

(** Induction over the states the server can be in. *)
Lemma reachable_ind (cfg : config) (P : state → Prop) :
  P initial →
  (∀ st ev, reachable cfg st → P st → P (step cfg st ev).1) →
  ∀ st, reachable cfg st → P st.
Proof.
  intros Hinit Hstep st [evs <-].
  induction evs as [|ev evs IH] using rev_ind; [exact Hinit|].
  rewrite run_snoc. apply Hstep; [by exists evs | exact IH].
Qed.

Lemma reachable_step (cfg : config) (st : state) (ev : client_event) :
  reachable cfg st → reachable cfg (step cfg st ev).1.
Proof. intros [evs <-]. exists (evs ++ [ev]). apply run_snoc. Qed.

(** What a step changes in the table of sockets, the room table and the
    registry: nothing, or what the event of its actor calls for. *)
Lemma step_footprint (cfg : config) (st : state) (ev : client_event) :
  let st' := (step cfg st ev).1 in
  let sid := actor ev in
  st' = st
  ∨ (¬ connected st sid ∧ st' = accept sid st)
  ∨ (connected st sid
     ∧ sockets st' = delete sid (sockets st)
     ∧ rooms st' = adapter_delAll sid (rooms st)
     ∧ users st' = delete sid (users st))
  ∨ (connected st sid
     ∧ dom (sockets st') = dom (sockets st)
     ∧ (rooms st' = rooms st
        ∨ ∃ r, rooms st' = adapter_add sid r (rooms st)
               ∨ rooms st' = adapter_del sid r (rooms st))
     ∧ (users st' = users st
        ∨ ∃ name,
            users st'
            = <[sid := {| user_id := sid; user_username := name |}]> (users st))).
Proof.
  destruct ev; cbn [actor].
  1: { unfold step. case_decide; [by left | right; left; done]. }
  8: { unfold step. case_decide; [|by left]. right; right; left.
       unfold on_disconnect, close. run_handler. cbn.
       by destruct (users st !! sid). }
  all: step_cases;
    first [ by left
          | right; right; right; split; [done|];
            split; [by rewrite ?dom_alter_L|]; split; eauto ].
Qed.

Lemma connected_dom (st : state) (sid : string) :
  connected st sid ↔ sid ∈ dom (sockets st).
Proof. unfold connected. by rewrite elem_of_dom. Qed.

Lemma reachable_rooms_connected (cfg : config) (st : state) :
  reachable cfg st → rooms_connected st.
Proof.
  revert st. apply reachable_ind.
  - intros r id. unfold members. cbn. rewrite lookup_empty. cbn.
    by intros ?%not_elem_of_empty.
  - intros st ev _ IH r id.
    destruct (step_footprint cfg st ev)
      as [-> | [[N ->] | [(C & Es & Er & _) | (C & Es & Er & _)]]].
    + apply IH.
    + unfold members, accept. cbn. rewrite lookup_adapter_add, !connected_dom.
      cbn. rewrite dom_insert_L. specialize (IH r id).
      rewrite connected_dom in IH. unfold members in IH.
      case_decide; rewrite ?elem_of_union, ?elem_of_singleton; intuition.
    + unfold members. rewrite Er, lookup_adapter_delAll, !connected_dom, Es.
      rewrite dom_delete_L, !elem_of_difference. intros [Hin Hne].
      split; [|done]. apply connected_dom, (IH r id Hin).
    + rewrite !connected_dom, Es, <- !connected_dom. unfold members.
      destruct Er as [-> | [r' [-> | ->]]].
      * apply IH.
      * rewrite lookup_adapter_add. specialize (IH r id). unfold members in IH.
        case_decide; rewrite ?elem_of_union, ?elem_of_singleton;
          intuition congruence.
      * rewrite lookup_adapter_del. specialize (IH r id). unfold members in IH.
        case_decide; rewrite ?elem_of_difference; intuition.
Qed.

Lemma reachable_users_connected (cfg : config) (st : state) :
  reachable cfg st → users_connected st.
Proof.
  revert st. apply reachable_ind.
  - intros id. cbn. rewrite lookup_empty. by intros [? ?].
  - intros st ev _ IH id.
    destruct (step_footprint cfg st ev)
      as [-> | [[N ->] | [(C & Es & _ & Eu) | (C & Es & _ & Eu)]]].
    + apply IH.
    + cbn. rewrite !connected_dom. cbn. rewrite dom_insert_L, elem_of_union.
      intros Hu%IH. right. by apply connected_dom.
    + rewrite Eu, !connected_dom, Es, dom_delete_L, elem_of_difference.
      rewrite lookup_delete. case_decide as Hne; [by intros [? ?]|].
      intros Hu%IH. split; [by apply connected_dom|].
      rewrite elem_of_singleton. congruence.
    + rewrite !connected_dom, Es, <- !connected_dom.
      destruct Eu as [-> | [name ->]]; [apply IH|].
      rewrite lookup_insert. case_decide; subst; [done | apply IH].
Qed.

(** ** The message log *)

Section MessageLog.
Variable cfg : config.
Let N : nat := Z.to_nat (MAX_STORED_MESSAGES cfg).

Lemma tail_app_drop (k : nat) (ms : list message) (m : message) :
  (k < length ms)%nat →
  tail (drop k ms ++ [m]) = drop (S k) (ms ++ [m]).
Proof.
  intros L. rewrite drop_app_le by lia.
  replace (S k) with (k + 1)%nat by lia. rewrite <- drop_drop.
  destruct (drop k ms) as [|x l] eqn:E; [|done].
  apply (f_equal length) in E. rewrite length_drop in E. cbn in E. lia.
Qed.

Lemma store_message_length (m : message) (log : list message) :
  Z.of_nat (length log) ≤ Z.max 0 (MAX_STORED_MESSAGES cfg) →
  Z.of_nat (length (store_message cfg m log))
    ≤ Z.max 0 (MAX_STORED_MESSAGES cfg).
Proof.
  intros L. unfold store_message.
  destruct (_ >? _) eqn:G.
  - destruct log; cbn in *; [lia|]. rewrite length_app. cbn. lia.
  - lia.
Qed.

Lemma stored_snoc (ms : list message) (m : message) :
  stored cfg (ms ++ [m]) = store_message cfg m (stored cfg ms).
Proof. unfold stored. by rewrite fold_left_app. Qed.

(** The log holds the last [N] messages stored, oldest first. *)
Lemma stored_drop (ms : list message) :
  0 < MAX_STORED_MESSAGES cfg →
  stored cfg ms = drop (length ms - N) ms.
Proof.
  intros Hpos. unfold N.
  induction ms as [|m ms IH] using rev_ind; [done|].
  rewrite stored_snoc, IH. unfold store_message.
  rewrite !length_app, length_drop. cbn [length].
  destruct (_ >? _) eqn:G.
  - apply Z.gtb_lt in G. rewrite tail_app_drop by lia. f_equal. lia.
  - rewrite Z.gtb_ltb in G. apply Z.ltb_ge in G.
    assert (length ms - Z.to_nat (MAX_STORED_MESSAGES cfg) = 0)%nat as ->
      by lia.
    assert (length ms + 1 - Z.to_nat (MAX_STORED_MESSAGES cfg) = 0)%nat as ->
      by lia.
    done.
Qed.

Lemma reachable_log_bounded (st : state) :
  reachable cfg st →
  Z.of_nat (length (messages st)) ≤ Z.max 0 (MAX_STORED_MESSAGES cfg).
Proof.
  revert st. apply reachable_ind; [cbn; lia|].
  intros st ev _ IH.
  destruct (step_messages cfg st ev) as [-> | [m ->]]; [done|].
  by apply store_message_length.
Qed.
End MessageLog.

(** ** The registry of users *)

Lemma reachable_users_keyed (cfg : config) (st : state) :
  reachable cfg st → users_keyed (users st).
Proof.
  revert st. apply reachable_ind.
  - intros k u. cbn. by rewrite lookup_empty.
  - intros st ev _ IH k u.
    destruct (step_users cfg st ev) as [-> | [(sid & name & ->) | [sid ->]]].
    + apply IH.
    + rewrite lookup_insert. case_decide; subst; [by intros [= <-] | apply IH].
    + rewrite lookup_delete. case_decide; [done | apply IH].
Qed.

Lemma entries_of_none (sid : string) (l : list user) :
  (∀ u, u ∈ l → user_id u ≠ sid) → entries_of sid l = [].
Proof.
  intros H. unfold entries_of.
  destruct (filter _ l) as [|u l'] eqn:E; [done|].
  assert (u ∈ filter (λ u, user_id u = sid) l) as [? ?]%list_elem_of_filter
    by (rewrite E; left).
  by destruct (H u).
Qed.

(** Setting an entry leaves exactly one roster entry for that connection. *)
Lemma entries_of_insert (sid : string) (u : user) (m : gmap string user) :
  users_keyed m → user_id u = sid →
  entries_of sid (map_to_list (<[sid := u]> m)).*2 = [u].
Proof.
  intros K I. rewrite <- insert_delete_eq. unfold entries_of.
  apply Permutation_singleton_r.
  rewrite map_to_list_insert by apply lookup_delete_eq.
  rewrite fmap_cons, filter_cons_True by done. cbn [snd].
  fold (entries_of sid (map_to_list (delete sid m)).*2).
  rewrite entries_of_none; [done|].
  intros v [[k v'] [-> Hin]]%list_elem_of_fmap. cbn.
  apply elem_of_map_to_list in Hin.
  rewrite lookup_delete in Hin. case_decide; [done|].
  by rewrite (K k v').
Qed.

Section Identity.
Variables (st : state) (sid : string).
Variables (props : list (string * JS.value)) (callback : bool).

Let name := JS.get props "username".
Let username := display_name name.
Let r := JS.get props "room".
Let st' := (exec (on_user_join sid (JS.Object props) callback) st).1.

(** Once the name has passed validation it is in [users], whatever
    becomes of the room. *)
Lemma user_join_users :
  JS.printable name = true → username ≠ "" →
  users st' = <[sid := {| user_id := sid; user_username := username |}]> (users st).
Proof.
  intros P E. subst st' username name.
  destruct (JS.printable (JS.get props "room")) eqn:Pr.
  - rewrite user_join_accepted by done. cbn. by destruct (JS.truthy _).
  - by rewrite user_join_room_fault.
Qed.

Lemma user_join_username :
  JS.printable name = true → username ≠ "" → connected st sid →
  data_username (data_of st' sid) = Some username.
Proof.
  intros P E [d C]. subst st' username name.
  destruct (JS.printable (JS.get props "room")) eqn:Pr.
  - rewrite user_join_accepted by done. cbn.
    destruct (JS.truthy _); unfold data_of; cbn;
      rewrite !lookup_alter_eq, C; done.
  - rewrite user_join_room_fault by done. unfold data_of. cbn.
    by rewrite lookup_alter_eq, C.
Qed.

Lemma user_join_data :
  JS.printable name = true → username ≠ "" → JS.printable r = true →
  connected st sid →
  data_of st' sid
    = {| data_username := Some username;
         data_room := if JS.truthy r then Some (JS.String r)
                      else data_room (data_of st sid) |}.
Proof.
  intros P E Pr [d C]. subst st' username name r.
  rewrite user_join_accepted by done. cbn.
  destruct (JS.truthy _); unfold data_of; cbn;
    rewrite !lookup_alter_eq, C; done.
Qed.

(** The name the handler records is at most 50 long. *)
Lemma display_name_length : (String.length username ≤ 50)%nat.
Proof. apply slice0_length. Qed.

(** The handler rejects exactly the truthy names that are blank. *)
Lemma display_name_empty :
  username = "" ↔ JS.truthy name = true ∧ JS.blank (JS.String name) = true.
Proof.
  subst username. unfold display_name.
  by rewrite slice0_empty, trim_empty, or_default_blank.
Qed.

Lemma display_name_default :
  JS.truthy name = false → username = "Anonymous".
Proof. subst username. unfold display_name, JS.or. by intros ->. Qed.

Lemma user_join_acks_cases :
  acks (exec (on_user_join sid (JS.Object props) callback) st).2
    = if callback then
        [ if negb (JS.printable name) then AckError "Server error"
          else if decide (username = "") then AckError "Invalid username"
          else if JS.printable r then AckOkId sid
          else AckError "Server error" ]
      else [].
Proof.
  subst username name r.
  destruct (JS.printable (JS.get props "username")) eqn:P; cbn.
  - case_decide as E.
    + rewrite user_join_invalid by done. by destruct callback.
    + destruct (JS.printable (JS.get props "room")) eqn:Pr.
      * rewrite user_join_accepted by done. cbn.
        destruct (JS.truthy (JS.get props "room")), callback; by acks_simpl.
      * rewrite user_join_room_fault by done. by destruct callback.
  - rewrite user_join_fault by done. by destruct callback.
Qed.
End Identity.

(** ** Senders *)

(** The sender a handler attaches is never the empty string. *)
Lemma username_of_nonempty (d : socket_data) : username_of d ≠ "".
Proof.
  unfold username_of, JS.or.
  destruct (data_username d) as [u|]; cbn; [|done].
  case_decide; cbn; done.
Qed.

Lemma username_of_unidentified (d : socket_data) :
  data_username d = None → username_of d = "Anonymous".
Proof. unfold username_of. by intros ->. Qed.

(** No step acknowledges with an error outside [known_errors]; there is no
    rejection for lack of identity. *)
Lemma step_known_acks (cfg : config) (st : state) (ev : client_event) :
  Forall known_ack (acks (step cfg st ev).2).
Proof.
  destruct ev; step_cases;
    repeat (rewrite ?acks_app, ?acks_deliver_all, ?Forall_app; cbn [acks omap app]);
    repeat split;
    try (apply Forall_nil_2);
    try (apply Forall_cons; split; [|apply Forall_nil_2]);
    try exact I; vm_compute; repeat constructor.
Qed.

(** ** Two runs *)

(** A message without a room goes to every connected socket, the sender
    included, under the sender's name and with room [null]. *)
Example message_without_room_is_global :
  let result :=
    exec (on_send_message default_config noon "s1"
            (JS.Object [("text", JS.Str " hi ")]) true) listening in
  let m :=
    {| msg_id := 1700000000007; msg_text := "hi"; msg_sender := "Alice";
       msg_senderId := "s1"; msg_timestamp := "2023-11-14T22:13:20.000Z";
       msg_room := JS.Null; msg_isPrivate := false |} in
  messages result.1 = [m]
  ∧ deliveries result.2
    = [ ("s3", receive_message m); ("s1", receive_message m);
        ("s2", receive_message m) ]
  ∧ acks result.2 = [AckOkMessage 1700000000007 "2023-11-14T22:13:20.000Z"].
Proof. vm_compute. done. Qed.

(** A message addressed to room A reaches the members of A (Alice and Bob)
    and not Carol, who sits in room B. *)
Example message_to_room_stays_in_room :
  let result :=
    exec (on_send_message default_config noon "s1"
            (JS.Object [("text", JS.Str "hello"); ("room", JS.Str "A")]) true)
         lobby in
  (deliveries result.2).*1 = ["s1"; "s2"]
  ∧ "s3" ∈ dom (sockets lobby)
  ∧ "s3" ∉ (deliveries result.2).*1.
Proof.
  intros result.
  assert (E : (deliveries result.2).*1 = ["s1"; "s2"]) by by vm_compute.
  split; [exact E|]. split.
  - apply elem_of_dom. eexists. by vm_compute.
  - rewrite E, !elem_of_cons, elem_of_nil. intuition discriminate.
Qed.

(** * The claims *)

(** C1. Whenever one of the five acknowledging listeners ([user_join],
    [join_room], [leave_room], [send_message], [private_message]) is called
    for an [emit] that carries an acknowledgment callback behind exactly
    one value, so that the callback is the listener's second argument, that
    callback is invoked exactly once and no other callback is invoked at
    all.  An internal fault (reading a property of a [null] payload, or
    converting to a string a value that has no primitive form) is answered
    with the single acknowledgment [{ ok: false, error: 'Server error' }].
    When the callback comes behind no value, or behind two values or more,
    it is not the second argument and is never invoked. *)
Theorem ack_exactly_once_as_second_argument (cfg : config) (clk : clock)
    (st : state) (sid : string)
    (data : list JS.payload) (names : list JS.value) :
  (length data = 1%nat →
   invoked_once sid (exec (listen_user_join sid (arguments data true)) st).2
   ∧ invoked_once sid
       (exec (listen_send_message cfg clk sid (arguments data true)) st).2
   ∧ invoked_once sid
       (exec (listen_private_message clk sid (arguments data true)) st).2)
  ∧ (length names = 1%nat →
     invoked_once sid (exec (listen_join_room sid (arguments names true)) st).2
     ∧ invoked_once sid
         (exec (listen_leave_room sid (arguments names true)) st).2)
  ∧ (length data ≠ 1%nat →
     never_invoked (exec (listen_user_join sid (arguments data true)) st).2
     ∧ never_invoked
         (exec (listen_send_message cfg clk sid (arguments data true)) st).2
     ∧ never_invoked
         (exec (listen_private_message clk sid (arguments data true)) st).2)
  ∧ (length names ≠ 1%nat →
     never_invoked (exec (listen_join_room sid (arguments names true)) st).2
     ∧ never_invoked
         (exec (listen_leave_room sid (arguments names true)) st).2)
  ∧ exec (listen_user_join sid (arguments [JS.NullPayload] true)) st
      = (st, [Acknowledge sid (AckError "Server error")])
  ∧ exec (listen_send_message cfg clk sid
            (arguments [JS.NullPayload] true)) st
      = (st, [Acknowledge sid (AckError "Server error")])
  ∧ exec (listen_private_message clk sid
            (arguments [JS.NullPayload] true)) st
      = (st, [Acknowledge sid (AckError "Server error")])
  ∧ exec (listen_send_message cfg clk sid
            (arguments [JS.Object [("text", JS.Opaque)]] true)) st
      = (st, [Acknowledge sid (AckError "Server error")]).
Proof.
  unfold listen_user_join, listen_join_room, listen_leave_room,
    listen_send_message, listen_private_message, invoked_once, never_invoked.
  rewrite !second_argument. cbn [andb].
  split; [intros L; rewrite (bool_decide_eq_true_2 _ L)|].
  { split; [apply user_join_acks|].
    split; [apply send_message_acks | apply private_message_acks]. }
  split; [intros L; rewrite (bool_decide_eq_true_2 _ L)|].
  { split; [apply join_room_acks | apply leave_room_acks]. }
  split; [intros L; rewrite (bool_decide_eq_false_2 _ L)|].
  { split; [apply user_join_silent|].
    split; [apply send_message_silent | apply private_message_silent]. }
  split; [intros L; rewrite (bool_decide_eq_false_2 _ L)|].
  { split; [apply join_room_silent | apply leave_room_silent]. }
  repeat split.
Qed.

Lemma ack_exactly_once_as_second_argument_witness :
  invoked_once "s1"
    (exec (listen_user_join "s1"
             (arguments [JS.Object [("username", JS.Str "Alice")]] true))
       fresh).2
  ∧ never_invoked
      (exec (listen_join_room "s1" (arguments [] true)) fresh).2
  ∧ invoked_once "s1"
      (exec (listen_join_room "s1" (arguments [JS.Str "A"] true)) fresh).2
  ∧ never_invoked
      (exec (listen_send_message default_config noon "s1"
               (arguments [JS.Object [("text", JS.Str "hi")];
                           JS.Object [("urgent", JS.Str "yes")]] true))
         fresh).2.
Proof.
  destruct (ack_exactly_once_as_second_argument default_config noon fresh
              "s1" [JS.Object [("username", JS.Str "Alice")]] [])
    as (H1 & _ & _ & H4 & _).
  destruct (ack_exactly_once_as_second_argument default_config noon fresh
              "s1" [JS.Object [("text", JS.Str "hi")];
                    JS.Object [("urgent", JS.Str "yes")]] [JS.Str "A"])
    as (_ & H2 & H3 & _).
  split; [apply H1; reflexivity|].
  split; [apply H4; simpl length; lia|].
  split; [apply H2; reflexivity|].
  apply H3. simpl length. lia.
Defined.

(** C1 as it is stated fails for a client that passes its callback as the
    only argument, [emit('user_join', callback)]: the listener takes the
    function for its payload, registers the socket as 'Anonymous' and
    announces it, and the callback is never invoked. *)
Lemma ack_behind_no_payload_never_invoked :
  let result := exec (listen_user_join "s1" (arguments [] true)) fresh in
  ¬ invoked_once "s1" result.2
  ∧ acks result.2 = []
  ∧ users result.1 !! "s1"
    = Some {| user_id := "s1"; user_username := "Anonymous" |}
  ∧ deliveries result.2
    = [("s1", user_list [{| user_id := "s1"; user_username := "Anonymous" |}]);
       ("s1", user_joined "Anonymous" "s1")].
Proof.
  cbn zeta. split; [|by vm_compute].
  intros [a H]. vm_compute in H. discriminate H.
Qed.

(** C4. The message log never holds more than the configured maximum [N]
    (200 unless configured) of messages, in any state the server can reach
    and after any sequence of appends; it holds the last [N] messages
    appended, in their original order; in particular after [N+1] appends
    the log is the sequence without its first message, and that first
    message (a distinct object from the later ones) is absent from it. *)
Theorem message_log_bounded_fifo (cfg : config) (ms : list message) :
  0 < MAX_STORED_MESSAGES cfg →
  let N := Z.to_nat (MAX_STORED_MESSAGES cfg) in
  MAX_STORED_MESSAGES default_config = 200
  ∧ (∀ st, reachable cfg st →
           Z.of_nat (length (messages st)) ≤ MAX_STORED_MESSAGES cfg)
  ∧ (length (stored cfg ms) ≤ N)%nat
  ∧ stored cfg ms = drop (length ms - N) ms
  ∧ (length ms = S N →
     stored cfg ms = tail ms
     ∧ length (stored cfg ms) = N
     ∧ (NoDup ms → ∀ m0, head ms = Some m0 → m0 ∉ stored cfg ms)).
Proof.
  intros Hpos N.
  assert (E : stored cfg ms = drop (length ms - N) ms) by by apply stored_drop.
  unfold N in *.
  split; [done|]. split; [|split; [|split; [exact E|]]].
  - intros st R. apply reachable_log_bounded in R. lia.
  - rewrite E, length_drop. lia.
  - intros L. rewrite E, L.
    assert (S (Z.to_nat (MAX_STORED_MESSAGES cfg))
              - Z.to_nat (MAX_STORED_MESSAGES cfg) = 1)%nat as -> by lia.
    destruct ms as [|m ms]; [done|]. cbn in L. cbn.
    split; [done|]. split; [by injection L|].
    intros [H _]%NoDup_cons m0 [= <-]. exact H.
Qed.

Lemma message_log_bounded_fifo_witness :
  stored tiny_config [note 1; note 2; note 3] = [note 2; note 3]
  ∧ note 1 ∉ stored tiny_config [note 1; note 2; note 3].
Proof.
  destruct (message_log_bounded_fifo tiny_config [note 1; note 2; note 3])
    as (_ & _ & _ & _ & H); [reflexivity|].
  destruct (H eq_refl) as (E & _ & A).
  split; [exact E|]. apply A; [|reflexivity].
  repeat (apply NoDup_cons; split); try apply NoDup_nil_2;
    rewrite ?elem_of_cons, ?elem_of_nil; unfold note; intuition discriminate.
Defined.

(** C5. A [send_message] whose trimmed text is longer than the configured
    maximum length is acknowledged with [{ ok: false, error: 'Message too
    long' }] and has no other effect: the server state, the message log
    included, is unchanged and nothing is emitted to any connection. *)
Theorem too_long_message_rejected (cfg : config) (clk : clock) (st : state)
    (sid : string) (props : list (string * JS.value)) (callback : bool) :
  0 ≤ MAX_MESSAGE_LENGTH cfg →
  JS.printable (JS.get props "text") = true →
  MAX_MESSAGE_LENGTH cfg
    < Z.of_nat (String.length (trimmed (JS.get props "text"))) →
  let result := exec (on_send_message cfg clk sid (JS.Object props) callback) st in
  result = (st, acked callback sid (AckError "Message too long"))
  ∧ messages result.1 = messages st
  ∧ deliveries result.2 = [].
Proof.
  intros Hmax P Hlong result. subst result.
  rewrite send_message_rejected_long; [by destruct callback | done | | done].
  intros E. rewrite E in Hlong. cbn in Hlong. lia.
Qed.

Lemma too_long_message_rejected_witness :
  exec (on_send_message tiny_config noon "s1"
          (JS.Object [("text", JS.Str "  far too long  ")]) true) seated
    = (seated, [Acknowledge "s1" (AckError "Message too long")]).
Proof.
  apply (too_long_message_rejected tiny_config noon seated "s1"
           [("text", JS.Str "  far too long  ")] true);
    vm_compute; congruence.
Defined.

(** C6, as stated, fails: the display name [""] trims to the empty string,
    yet [user_join] succeeds and records the name Anonymous. *)
Lemma empty_username_becomes_anonymous :
  let result :=
    exec (on_user_join "s1" (JS.Object [("username", JS.Str "")]) true) fresh in
  JS.trim "" = ""
  ∧ acks result.2 = [AckOkId "s1"]
  ∧ users result.1 !! "s1"
      = Some {| user_id := "s1"; user_username := "Anonymous" |}
  ∧ data_username (data_of result.1 "s1") = Some "Anonymous".
Proof. vm_compute. done. Qed.

(** C6, amended. For a [user_join] with an object payload (or none) whose
    username can be converted to a string, the handler fails with 'Invalid
    username' if and only if the supplied username is truthy and its string
    form consists of white space only, and then changes nothing.  In every
    other case a missing, [null] or empty username is replaced by
    'Anonymous', a truthy one is converted to a string and trimmed, and the
    result cut to its first 50 characters (never empty) is stored in [users]
    and in [socket.data]; the call is then acknowledged with success, unless
    a room was supplied that cannot be converted to a string, which is
    answered with 'Server error'. *)
Theorem user_join_name_validation (st : state) (sid : string)
    (props : list (string * JS.value)) :
  let name := JS.get props "username" in
  let room := JS.get props "room" in
  let rejected := JS.truthy name = true ∧ JS.blank (JS.String name) = true in
  let result := exec (on_user_join sid (JS.Object props) true) st in
  JS.printable name = true →
  (acks result.2 = [AckError "Invalid username"] ↔ rejected)
  ∧ (rejected → result.1 = st)
  ∧ (¬ rejected →
     users result.1 !! sid
       = Some {| user_id := sid; user_username := display_name name |}
     ∧ (connected st sid →
        data_username (data_of result.1 sid) = Some (display_name name))
     ∧ display_name name ≠ ""
     ∧ (String.length (display_name name) ≤ 50)%nat
     ∧ acks result.2
       = [ if JS.printable room then AckOkId sid
           else AckError "Server error" ])
  ∧ (JS.truthy name = false → display_name name = "Anonymous")
  ∧ (JS.truthy name = true →
     display_name name = JS.slice0 50 (JS.trim (JS.String name)))
  ∧ exec (on_user_join sid JS.NoPayload true) st
      = exec (on_user_join sid (JS.Object []) true) st.
Proof.
  intros name room rejected result P.
  pose proof (display_name_empty props) as Hempty. fold name rejected in Hempty.
  pose proof (user_join_acks_cases st sid props true) as Hacks.
  fold name room result in Hacks. rewrite P in Hacks. cbn [negb] in Hacks.
  split; [|split; [|split; [|split; [|split]]]].
  - rewrite <- Hempty, Hacks. case_decide; [done|].
    destruct (JS.printable room); intuition congruence.
  - intros R%Hempty. subst result. by rewrite user_join_invalid.
  - intros R. assert (E : display_name name ≠ "") by by rewrite Hempty.
    split; [|split; [|split; [|split]]].
    + subst result. rewrite user_join_users by done. apply lookup_insert_eq.
    + intros C. subst result. by apply user_join_username.
    + done.
    + apply display_name_length.
    + rewrite Hacks. by rewrite decide_False.
  - apply display_name_default.
  - unfold display_name, JS.or. by intros ->.
  - done.
Qed.

Lemma user_join_name_validation_witness :
  acks (exec (on_user_join "s1"
                (JS.Object [("username", JS.Str "   ")]) true) fresh).2
    = [AckError "Invalid username"]
  ∧ users (exec (on_user_join "s1"
                   (JS.Object [("username", JS.Str " Alice ")]) true) fresh).1
      !! "s1"
    = Some {| user_id := "s1"; user_username := "Alice" |}.
Proof.
  split.
  - apply (user_join_name_validation fresh "s1" [("username", JS.Str "   ")]);
      [reflexivity|]. split; reflexivity.
  - apply (user_join_name_validation fresh "s1" [("username", JS.Str " Alice ")]);
      [reflexivity|]. intros [_ B]. discriminate B.
Defined.

(** C7, as stated, fails: Alice's private message to an unregistered
    target, with an empty text, is answered with 'Invalid payload', not
    with 'Recipient not connected'. *)
Lemma unregistered_target_invalid_payload :
  users seated !! "ghost" = None
  ∧ exec (on_private_message noon "s1"
            (JS.Object [("to", JS.Str "ghost"); ("text", JS.Str "")]) true)
         seated
    = (seated, [Acknowledge "s1" (AckError "Invalid payload")]).
Proof. split; [by vm_compute | reflexivity]. Qed.

(** C7, amended. A [private_message] whose (trimmed) target is not a key of
    [users] is delivered to no connection and changes nothing; it is
    acknowledged with a failure, which is 'Recipient not connected' when the
    trimmed target and the trimmed text are both non-empty, 'Invalid
    payload' when one of them is empty, and 'Server error' when the text
    cannot be converted to a string. *)
Theorem private_message_unregistered_target (clk : clock) (st : state)
    (sid : string) (props : list (string * JS.value)) (callback : bool) :
  let to := trimmed (JS.get props "to") in
  let text := trimmed (JS.get props "text") in
  JS.printable (JS.get props "to") = true →
  users st !! to = None →
  let result := exec (on_private_message clk sid (JS.Object props) callback) st in
  result.1 = st
  ∧ deliveries result.2 = []
  ∧ result.2
    = acked callback sid
        (AckError
           (if negb (JS.printable (JS.get props "text")) then "Server error"
            else if decide (to = "" ∨ text = "") then "Invalid payload"
            else "Recipient not connected")).
Proof.
  intros to text P N result. subst result.
  destruct (JS.printable (JS.get props "text")) eqn:P'; cbn [negb].
  - case_decide as D.
    + rewrite private_message_invalid by done. by destruct callback.
    + rewrite private_message_unknown_recipient by tauto. by destruct callback.
  - rewrite private_message_fault by tauto. by destruct callback.
Qed.

Lemma private_message_unregistered_target_witness :
  exec (on_private_message noon "s1"
          (JS.Object [("to", JS.Str "ghost"); ("text", JS.Str "psst")]) true)
       seated
    = (seated, [Acknowledge "s1" (AckError "Recipient not connected")]).
Proof.
  pose proof (private_message_unregistered_target noon seated "s1"
    [("to", JS.Str "ghost"); ("text", JS.Str "psst")] true) as H.
  destruct H as (E1 & _ & E2); [reflexivity | by vm_compute |].
  rewrite (surjective_pairing (exec _ _)), E1, E2. reflexivity.
Defined.

(** C2, as stated, fails: in [lobby] Alice (s1) is in room A; when she
    joins room B she stays a member of A, is a member of A and B at once,
    and the only notice emitted is the joined-room notice for B to Carol
    (Bob, in A, is told nothing). *)
Lemma join_room_keeps_previous_room :
  let result := exec (on_join_room "s1" (JS.Str "B") true) lobby in
  data_room (data_of lobby "s1") = Some "A"
  ∧ "s1" ∈ members lobby "A"
  ∧ "s2" ∈ members lobby "A"
  ∧ "s1" ∈ members result.1 "A"
  ∧ "s1" ∈ members result.1 "B"
  ∧ result.2 = [ Deliver "s3" (user_joined_room "Alice" "s1" "B");
                 Acknowledge "s1" AckOk ].
Proof. vm_compute. done. Qed.

(** C2, amended. When a connection whose current room is A joins a
    different room B, it is added to B and not removed from A: afterwards
    it is a member of both, the membership of every room other than B is as
    before, its stored current room is B, and the effects are exactly a
    joined-room notice for B, to the members of B outside the room named by
    the connection's own id (the other members of B, as long as that room
    holds the connection alone), followed by the caller's acknowledgment;
    no left-room notice is emitted. *)
Theorem join_room_adds_membership (st : state) (sid A B : string)
    (callback : bool) :
  data_room (data_of st sid) = Some A → sid ∈ members st A →
  A ≠ B → B ≠ "" →
  let result := exec (on_join_room sid (JS.Str B) callback) st in
  sid ∈ members result.1 A
  ∧ sid ∈ members result.1 B
  ∧ members result.1 B = {[sid]} ∪ members st B
  ∧ (∀ r, r ≠ B → members result.1 r = members st r)
  ∧ data_room (data_of result.1 sid) = Some B
  ∧ result.2
    = deliver_all (user_joined_room (username_of (data_of st sid)) sid B)
        (elements (members result.1 B ∖ members result.1 sid))
      ++ acked callback sid AckOk.
Proof.
  intros HA Hin Hne HB result. subst result.
  assert (C : connected st sid).
  { unfold connected, data_of in *. by destruct (sockets st !! sid). }
  rewrite join_room_accepted by done. cbn [fst snd].
  rewrite !members_enter.
  rewrite (decide_False (P := B = A)) by congruence.
  rewrite !(decide_True (P := B = B)) by done.
  split; [done|]. split; [apply elem_of_union_l, elem_of_singleton_2; done|].
  split; [done|]. split.
  { intros r Hr. rewrite members_enter. by rewrite decide_False. }
  split; [by rewrite data_of_enter|].
  unfold username_of. by rewrite data_username_enter.
Qed.

Lemma join_room_adds_membership_witness :
  "s1" ∈ members (exec (on_join_room "s1" (JS.Str "B") true) lobby).1 "A"
  ∧ "s1" ∈ members (exec (on_join_room "s1" (JS.Str "B") true) lobby).1 "B".
Proof.
  destruct (join_room_adds_membership lobby "s1" "A" "B" true)
    as (H1 & H2 & _); [by vm_compute | by vm_compute | done | done |].
  split; [exact H1 | exact H2].
Defined.

(** C10. When a connection whose stored current room is A calls
    [leave_room] with any non-empty room name B, its stored current room is
    cleared; if B differs from A, the delivery set of A is untouched (the
    connection stays in it if it was there).  From then on the room
    resolution of [send_message] and [typing] with no room in the payload
    yields [null]: such a message is broadcast to every connected socket,
    and so is the typing list. *)
Theorem leave_room_clears_current_room (cfg : config) (clk : clock)
    (st : state) (sid A B : string) (callback : bool) :
  data_room (data_of st sid) = Some A → B ≠ "" →
  let st' := (exec (on_leave_room sid (JS.Str B) callback) st).1 in
  data_room (data_of st' sid) = None
  ∧ (A ≠ B → members st' A = members st A)
  ∧ (∀ r, JS.truthy r = false → resolve_room r (data_of st' sid) = JS.Null)
  ∧ (∀ props cb,
       JS.truthy (JS.get props "room") = false →
       JS.printable (JS.get props "text") = true →
       trimmed (JS.get props "text") ≠ "" →
       Z.of_nat (String.length (trimmed (JS.get props "text")))
         ≤ MAX_MESSAGE_LENGTH cfg →
       let m := built_message clk st' sid props in
       msg_room m = JS.Null
       ∧ (exec (on_send_message cfg clk sid (JS.Object props) cb) st').2
         = deliver_all (receive_message m) (elements (dom (sockets st)))
           ++ acked cb sid (AckOkMessage (msg_id m) (msg_timestamp m)))
  ∧ (∀ props,
       JS.truthy (JS.get props "room") = false →
       ∃ names,
         (exec (on_typing sid (JS.Object props)) st').2
         = deliver_all (typing_users names) (elements (dom (sockets st)))).
Proof.
  intros HA HB st'. subst st'.
  rewrite leave_room_accepted by done. cbn [fst].
  assert (R : ∀ r, JS.truthy r = false →
              resolve_room r (data_of (leave sid B st) sid) = JS.Null).
  { intros r Hr. unfold resolve_room, JS.or.
    by rewrite Hr, data_room_leave. }
  split; [apply data_room_leave|].
  split; [intros Hne; rewrite members_leave; by rewrite decide_False|].
  split; [exact R|]. split.
  - intros props cb Hr P Ht Hl.
    set (m := built_message clk (leave sid B st) sid props).
    assert (Hm : msg_room m = JS.Null) by (apply R, Hr).
    split; [exact Hm|].
    rewrite send_message_accepted by done. cbn [snd]. fold m.
    rewrite Hm. unfold scope. cbn [JS.truthy].
    by rewrite sockets_dom_leave.
  - intros props Hr. rewrite typing_processed. cbn [snd].
    rewrite (R _ Hr). cbn [JS.truthy]. eexists.
    cbn [sockets set_typingUsers]. by rewrite sockets_dom_leave.
Qed.

Lemma leave_room_clears_current_room_witness :
  data_room (data_of (exec (on_leave_room "s1" (JS.Str "B") true) lobby).1 "s1")
    = None
  ∧ members (exec (on_leave_room "s1" (JS.Str "B") true) lobby).1 "A"
    = members lobby "A".
Proof.
  destruct (leave_room_clears_current_room default_config noon lobby
              "s1" "A" "B" true) as (H1 & H2 & _); [by vm_compute | done |].
  split; [exact H1 | by apply H2].
Defined.

(** C3, as stated, fails: a connection that never announced a name sends a
    message; it is not rejected but stored, broadcast and acknowledged with
    success, with the sender Anonymous. *)
Lemma unidentified_send_message_accepted :
  let result :=
    exec (on_send_message default_config noon "s1"
            (JS.Object [("text", JS.Str "hi")]) true) fresh in
  let m :=
    {| msg_id := 1700000000007; msg_text := "hi"; msg_sender := "Anonymous";
       msg_senderId := "s1"; msg_timestamp := "2023-11-14T22:13:20.000Z";
       msg_room := JS.Null; msg_isPrivate := false |} in
  data_username (data_of fresh "s1") = None
  ∧ users fresh !! "s1" = None
  ∧ messages result.1 = [m]
  ∧ result.2 = [ Deliver "s1" (receive_message m);
                 Acknowledge "s1"
                   (AckOkMessage 1700000000007 "2023-11-14T22:13:20.000Z") ].
Proof. vm_compute. done. Qed.

(** C3, amended. No handler asks whether the connection has announced a
    name, and no acknowledgment ever carries an error other than the seven
    of [known_errors].  Events from a connection without a name are
    processed like anyone else's, with 'Anonymous' standing in as the
    sender or username: a valid [send_message] is stored, emitted and
    acknowledged with success; [join_room] and [leave_room] with a
    non-empty room name are acknowledged with success; a valid
    [private_message] to a registered target is delivered and acknowledged
    with success; [typing] records the connection as Anonymous;
    [read_message] emits a receipt in the name of Anonymous.  The sender a
    handler attaches is never empty. *)
Theorem unidentified_connection_served (cfg : config) (clk : clock)
    (st : state) (sid : string) :
  connected st sid → data_username (data_of st sid) = None →
  (∀ props,
     JS.printable (JS.get props "text") = true →
     trimmed (JS.get props "text") ≠ "" →
     Z.of_nat (String.length (trimmed (JS.get props "text")))
       ≤ MAX_MESSAGE_LENGTH cfg →
     let result := exec (on_send_message cfg clk sid (JS.Object props) true) st in
     let m := built_message clk st sid props in
     msg_sender m = "Anonymous"
     ∧ messages result.1 = store_message cfg m (messages st)
     ∧ deliveries result.2
       = (λ id, (id, receive_message m)) <$> elements (scope st (msg_room m))
     ∧ acks result.2 = [AckOkMessage (msg_id m) (msg_timestamp m)])
  ∧ (∀ room, room ≠ "" →
       let result := exec (on_join_room sid (JS.Str room) true) st in
       acks result.2 = [AckOk]
       ∧ data_room (data_of result.1 sid) = Some room
       ∧ sid ∈ members result.1 room)
  ∧ (∀ room, room ≠ "" →
       let result := exec (on_leave_room sid (JS.Str room) true) st in
       acks result.2 = [AckOk]
       ∧ sid ∉ members result.1 room)
  ∧ (∀ props,
       JS.printable (JS.get props "to") = true →
       JS.printable (JS.get props "text") = true →
       trimmed (JS.get props "to") ≠ "" → trimmed (JS.get props "text") ≠ "" →
       is_Some (users st !! trimmed (JS.get props "to")) →
       let result := exec (on_private_message clk sid (JS.Object props) true) st in
       let m := built_private clk st sid props in
       pm_sender m = "Anonymous"
       ∧ (sid, private_message m) ∈ deliveries result.2
       ∧ acks result.2 = [AckOkMessage (pm_id m) (pm_timestamp m)])
  ∧ (∀ props,
       JS.truthy (JS.get props "isTyping") = true →
       typingUsers (exec (on_typing sid (JS.Object props)) st).1 !! sid
         = Some "Anonymous")
  ∧ (∀ props,
       JS.truthy (JS.get props "messageId") = true →
       deliveries (exec (on_read_message clk sid (JS.Object props)) st).2
         = (λ id, (id, message_read
                         {| rc_messageId := JS.get props "messageId";
                            rc_readerId := sid; rc_username := "Anonymous";
                            rc_timestamp := toISOString clk |}))
             <$> elements (scope st (resolve_room (JS.get props "room")
                                       (data_of st sid))))
  ∧ (∀ ev, Forall known_ack (acks (step cfg st ev).2))
  ∧ (∀ d, username_of d ≠ "").
Proof.
  intros C U.
  assert (A : username_of (data_of st sid) = "Anonymous")
    by by apply username_of_unidentified.
  split; [|split; [|split; [|split; [|split; [|split; [|split]]]]]].
  - intros props P Ht Hl result m. subst result.
    rewrite send_message_accepted by done. cbn [fst snd]. fold m.
    split; [exact A|]. split; [done|].
    rewrite deliveries_app, deliveries_deliver_all, acks_app, acks_deliver_all.
    cbn. by rewrite app_nil_r.
  - intros room Hr result. subst result.
    rewrite join_room_accepted by done. cbn [fst snd].
    rewrite acks_app, acks_deliver_all, data_of_enter, members_enter by done.
    rewrite decide_True by done.
    split; [done|]. split; [done|]. apply elem_of_union_l. by apply elem_of_singleton_2.
  - intros room Hr result. subst result.
    rewrite leave_room_accepted by done. cbn [fst snd].
    rewrite acks_app, acks_deliver_all, members_leave, decide_True by done.
    split; [done|]. intros [_ H]%elem_of_difference. apply H.
    by apply elem_of_singleton_2.
  - intros props P1 P2 Hto Ht Hu result m. subst result.
    rewrite private_message_accepted by done. cbn [fst snd]. fold m.
    split; [exact A|].
    rewrite !deliveries_app, !acks_app, acks_deliver_all. cbn.
    split; [|done]. apply elem_of_app. right. left.
  - intros props Ht. rewrite typing_processed. cbn [fst].
    rewrite Ht, A. cbn. apply lookup_insert_eq.
  - intros props Hm. rewrite read_message_processed by done. cbn [snd].
    by rewrite deliveries_deliver_all, A.
  - intros ev. apply step_known_acks.
  - apply username_of_nonempty.
Qed.

Lemma unidentified_connection_served_witness :
  acks (exec (on_join_room "s1" (JS.Str "lobby") true) fresh).2 = [AckOk]
  ∧ typingUsers (exec (on_typing "s1"
      (JS.Object [("isTyping", JS.Other true "true")])) fresh).1 !! "s1"
    = Some "Anonymous".
Proof.
  destruct (unidentified_connection_served default_config noon fresh "s1")
    as (_ & J & _ & _ & T & _);
    [eexists; vm_compute; reflexivity | vm_compute; reflexivity |].
  split; [by apply J | by apply T].
Defined.

(** The deliveries of an accepted private message: one to every member of
    the room named by the target id, then one to the sender. *)
Lemma private_message_deliveries (clk : clock) (st : state) (sid : string)
    (props : list (string * JS.value)) (callback : bool) :
  let to := trimmed (JS.get props "to") in
  let m := built_private clk st sid props in
  JS.printable (JS.get props "to") = true →
  JS.printable (JS.get props "text") = true →
  to ≠ "" → trimmed (JS.get props "text") ≠ "" → is_Some (users st !! to) →
  deliveries (exec (on_private_message clk sid (JS.Object props) callback) st).2
    = ((λ id, (id, private_message m)) <$> elements (members st to))
      ++ [(sid, private_message m)].
Proof.
  intros to m P1 P2 Hto Ht Hu. rewrite private_message_accepted by done.
  cbn [snd]. rewrite !deliveries_app, deliveries_deliver_all.
  by destruct callback.
Qed.

(** While the room named by the target id holds the target alone, there
    are exactly two deliveries: to the target and back to the sender. *)
Lemma private_message_two_deliveries (clk : clock) (st : state) (sid : string)
    (props : list (string * JS.value)) (callback : bool) :
  let to := trimmed (JS.get props "to") in
  let m := built_private clk st sid props in
  JS.printable (JS.get props "to") = true →
  JS.printable (JS.get props "text") = true →
  to ≠ "" → trimmed (JS.get props "text") ≠ "" → is_Some (users st !! to) →
  members st to = {[to]} →
  deliveries (exec (on_private_message clk sid (JS.Object props) callback) st).2
    = [(to, private_message m); (sid, private_message m)].
Proof.
  intros to m P1 P2 Hto Ht Hu Hm. rewrite private_message_deliveries by done.
  fold to. by rewrite Hm, elements_singleton.
Qed.

(** C8 fails on the code.  In [listening], Alice (s1) and Bob (s2) are
    registered and a third connection (s3) has joined the room named "s2".
    Alice's private message to Bob succeeds and is delivered three times:
    to s3, to Bob and back to Alice. *)
Theorem private_message_reaches_third_connection :
  let props := [("to", JS.Str "s2"); ("text", JS.Str "psst")] in
  let result := exec (on_private_message noon "s1" (JS.Object props) true) listening in
  let m :=
    {| pm_id := 1700000000007; pm_text := "psst"; pm_sender := "Alice";
       pm_senderId := "s1"; pm_recipientId := "s2";
       pm_timestamp := "2023-11-14T22:13:20.000Z"; pm_isPrivate := true |} in
  reachable default_config listening
  ∧ users listening !! "s2" = Some {| user_id := "s2"; user_username := "Bob" |}
  ∧ users listening !! "s3" = None
  ∧ acks result.2 = [AckOkMessage 1700000000007 "2023-11-14T22:13:20.000Z"]
  ∧ deliveries result.2
    = [ ("s3", private_message m); ("s2", private_message m);
        ("s1", private_message m) ].
Proof.
  split; [by exists listening_trace|]. vm_compute. done.
Qed.

(** C9, as stated, fails.  In [seated] the first connection is registered
    as Alice and sits in room A, and the second is registered as Bob.  The
    first connection's [user_join] as Bob, with no room in the payload,
    succeeds; afterwards its current room is still A, and the roster shows
    the name Bob twice. *)
Lemma user_join_keeps_room_and_repeats_name :
  let props := [("username", JS.Str "Bob")] in
  let result := exec (on_user_join "s1" (JS.Object props) true) seated in
  reachable default_config seated
  ∧ JS.get props "room" = JS.Undefined
  ∧ acks result.2 = [AckOkId "s1"]
  ∧ data_room (data_of result.1 "s1") = Some "A"
  ∧ entries_named "Bob" (roster result.1)
    = [ {| user_id := "s1"; user_username := "Bob" |};
        {| user_id := "s2"; user_username := "Bob" |} ].
Proof.
  split; [by exists seated_trace|]. vm_compute. done.
Qed.

(** C9, amended. After [user_join] succeeds for a connection (it is
    acknowledged with [{ ok: true, id }]), the connection's stored current
    room is the room supplied in that call when one was supplied and is
    otherwise what it was before the call (none, for a connection that has
    not joined a room); the roster holds exactly one entry for the
    connection, and that entry carries the new display name. *)
Theorem user_join_room_and_roster (cfg : config) (st : state) (sid : string)
    (props : list (string * JS.value)) :
  reachable cfg st → connected st sid →
  let username := display_name (JS.get props "username") in
  let r := JS.get props "room" in
  let result := exec (on_user_join sid (JS.Object props) true) st in
  acks result.2 = [AckOkId sid] →
  data_room (data_of result.1 sid)
    = (if JS.truthy r then Some (JS.String r) else data_room (data_of st sid))
  ∧ data_username (data_of result.1 sid) = Some username
  ∧ entries_of sid (roster result.1)
    = [ {| user_id := sid; user_username := username |} ].
Proof.
  intros R C username r result Hok. subst result.
  rewrite user_join_acks_cases in Hok. fold username r in Hok.
  destruct (JS.printable (JS.get props "username")) eqn:P;
    cbn [negb] in Hok; [|done].
  case_decide as E; [done|].
  destruct (JS.printable r) eqn:Pr; [|done].
  rewrite user_join_data by done. cbn [data_room data_username].
  split; [done|]. split; [done|].
  unfold roster. rewrite user_join_users by done.
  apply entries_of_insert; [by eapply reachable_users_keyed | done].
Qed.

Lemma user_join_room_and_roster_witness :
  data_room (data_of (exec (on_user_join "s1"
      (JS.Object [("username", JS.Str "Alice")]) true) fresh).1 "s1") = None
  ∧ entries_of "s1" (roster (exec (on_user_join "s1"
      (JS.Object [("username", JS.Str "Alice")]) true) fresh).1)
    = [ {| user_id := "s1"; user_username := "Alice" |} ].
Proof.
  destruct (user_join_room_and_roster default_config fresh "s1"
              [("username", JS.Str "Alice")]) as (H1 & _ & H2);
    [ by exists [Connect "s1"]
    | eexists; vm_compute; reflexivity
    | vm_compute; reflexivity
    | ].
  split; [exact H1 | exact H2].
Defined.

(** * Further properties of the handlers *)

(** ** Disconnect *)

(** X1. When a connected socket disconnects it is removed from the table of
    sockets, from [users], from [typingUsers] and from every room; every
    other entry of these stores, and the message log, stay as they were. *)
Theorem disconnect_purges (cfg : config) (st : state) (sid reason : string) :
  connected st sid →
  let st' := (step cfg st (Disconnect sid reason)).1 in
  ¬ connected st' sid
  ∧ users st' !! sid = None
  ∧ typingUsers st' !! sid = None
  ∧ (∀ r, members st' r = members st r ∖ {[sid]})
  ∧ (∀ k, k ≠ sid →
          sockets st' !! k = sockets st !! k
          ∧ users st' !! k = users st !! k
          ∧ typingUsers st' !! k = typingUsers st !! k)
  ∧ messages st' = messages st.
Proof.
  intros C st'. subst st'. unfold step. rewrite decide_True by done.
  unfold on_disconnect, close. run_handler. cbn.
  destruct (users st !! sid) as [u|] eqn:E; cbn.
  all: split; [unfold connected; cbn; rewrite lookup_delete_eq; by intros [? ?]|].
  all: split; [apply lookup_delete_eq|].
  all: split; [apply lookup_delete_eq|].
  all: split; [intros r; apply lookup_adapter_delAll|].
  all: split; [|done].
  all: intros k Hk; by rewrite !lookup_delete_ne.
Qed.

Lemma disconnect_purges_witness :
  users (step default_config lobby (Disconnect "s1" "transport close")).1 !! "s1"
    = None
  ∧ members (step default_config lobby (Disconnect "s1" "transport close")).1 "A"
    = members lobby "A" ∖ {["s1"]}.
Proof.
  destruct (disconnect_purges default_config lobby "s1" "transport close")
    as (_ & H1 & _ & H2 & _); [eexists; vm_compute; reflexivity|].
  split; [exact H1 | apply H2].
Defined.

(** X2. The effects of a disconnect: when the socket was registered, a
    [user_left] notice with its name and the reason; then the roster and the
    typing list as they are after the removal.  Each goes to every socket
    that remains connected; nothing goes to the socket that left, no
    callback is invoked, and an unregistered socket leaves without a
    [user_left] notice. *)
Theorem disconnect_notifies (cfg : config) (st : state) (sid reason : string) :
  connected st sid →
  let result := step cfg st (Disconnect sid reason) in
  let others := elements (dom (sockets st) ∖ {[sid]}) in
  result.2
  = (match users st !! sid with
     | Some u => deliver_all (user_left (user_username u) sid reason) others
     | None => []
     end)
    ++ deliver_all (user_list (roster result.1)) others
    ++ deliver_all (typing_users ((map_to_list (typingUsers result.1)).*2))
         others
  ∧ (sid ∉ recipients result.2)
  ∧ acks result.2 = [].
Proof.
  intros C result others. subst result.
  assert (E : (step cfg st (Disconnect sid reason)).2
    = (match users st !! sid with
       | Some u => deliver_all (user_left (user_username u) sid reason) others
       | None => []
       end)
      ++ deliver_all
           (user_list (roster (step cfg st (Disconnect sid reason)).1)) others
      ++ deliver_all
           (typing_users
              ((map_to_list
                  (typingUsers (step cfg st (Disconnect sid reason)).1)).*2))
           others).
  { subst others. unfold step. rewrite decide_True by done.
    unfold on_disconnect, close. run_handler. cbn.
    destruct (users st !! sid) as [u|]; cbn; rewrite dom_delete_L;
      by rewrite ?app_nil_r. }
  split; [exact E|]. rewrite E. clear E.
  assert (N : ∀ e, sid ∉ recipients (deliver_all e others)).
  { intros e. unfold recipients. rewrite deliveries_deliver_all.
    rewrite <- list_fmap_compose. cbn. rewrite list_fmap_id.
    subst others. rewrite elem_of_elements, elem_of_difference.
    intros [_ H]. apply H. by apply elem_of_singleton_2. }
  split.
  - unfold recipients in *. rewrite !deliveries_app, !fmap_app, !elem_of_app.
    intros [H | [H | H]]; try by eapply N.
    destruct (users st !! sid); [by eapply N | by apply elem_of_nil in H].
  - rewrite !acks_app, !acks_deliver_all.
    destruct (users st !! sid); by rewrite ?acks_deliver_all.
Qed.

Lemma disconnect_notifies_witness :
  "s1" ∉ recipients (step default_config lobby
                       (Disconnect "s1" "transport close")).2.
Proof.
  apply (disconnect_notifies default_config lobby "s1" "transport close").
  eexists. vm_compute. reflexivity.
Defined.

(** ** Typing and read receipts *)

(** X3. A [typing] event with a truthy [isTyping] records the socket under
    its current name; a later one with a falsy [isTyping] removes the entry
    again, so that [typingUsers] is what it was without the socket.  Neither
    touches [users], the log, the sockets' data or the rooms, and a [null]
    payload is ignored altogether. *)
Theorem typing_sets_and_clears (st : state) (sid : string)
    (props props' : list (string * JS.value)) :
  JS.truthy (JS.get props "isTyping") = true →
  JS.truthy (JS.get props' "isTyping") = false →
  let on := (exec (on_typing sid (JS.Object props)) st).1 in
  let off := (exec (on_typing sid (JS.Object props')) on).1 in
  typingUsers on = <[sid := username_of (data_of st sid)]> (typingUsers st)
  ∧ typingUsers off = delete sid (typingUsers st)
  ∧ users off = users st
  ∧ messages off = messages st
  ∧ sockets off = sockets st
  ∧ rooms off = rooms st
  ∧ exec (on_typing sid JS.NullPayload) st = (st, []).
Proof.
  intros T F on off. subst on off.
  rewrite !typing_processed. cbn [fst]. rewrite T, F. cbn.
  by rewrite delete_insert_eq.
Qed.

Lemma typing_sets_and_clears_witness :
  typingUsers
    (exec (on_typing "s1" (JS.Object [("isTyping", JS.Other false "false")]))
       (exec (on_typing "s1" (JS.Object [("isTyping", JS.Other true "true")]))
          lobby).1).1
  = delete "s1" (typingUsers lobby).
Proof.
  apply (typing_sets_and_clears lobby "s1"
           [("isTyping", JS.Other true "true")]
           [("isTyping", JS.Other false "false")]); reflexivity.
Defined.

(** X4. When the room of a [typing] event resolves to a room name (given in
    the payload, or else the socket's current room), the typing list is
    sent to the members of that room and to nobody else, and it holds
    exactly the names under which members of that room are recorded as
    typing.  A socket that is not a member of the room it types into
    neither receives the list nor appears in it through its own entry. *)
Theorem typing_list_of_room (st : state) (sid : string)
    (props : list (string * JS.value)) (r : string) :
  resolve_room (JS.get props "room") (data_of st sid) = JS.Str r → r ≠ "" →
  let result := exec (on_typing sid (JS.Object props)) st in
  ∃ names,
    deliveries result.2
      = (λ id, (id, typing_users names)) <$> elements (members st r)
    ∧ (∀ n, n ∈ names
            ↔ ∃ id, id ∈ members st r ∧ typingUsers result.1 !! id = Some n)
    ∧ (sid ∉ members st r → sid ∉ recipients result.2).
Proof.
  intros R Hr result. subst result.
  rewrite typing_processed. cbn [fst snd]. rewrite R.
  assert (JS.truthy (JS.Str r) = true) as -> by (cbn; by case_decide).
  cbn [addressed lodged members set_typingUsers rooms typingUsers].
  eexists. split; [apply deliveries_deliver_all|]. split.
  - intros n. rewrite list_elem_of_omap.
    by setoid_rewrite elem_of_elements.
  - intros N. unfold recipients. rewrite deliveries_deliver_all.
    rewrite <- list_fmap_compose. cbn. rewrite list_fmap_id.
    by rewrite elem_of_elements.
Qed.

Lemma typing_list_of_room_witness :
  recipients (exec (on_typing "s3"
      (JS.Object [("isTyping", JS.Other true "true"); ("room", JS.Str "A")]))
      lobby).2 = ["s1"; "s2"].
Proof.
  destruct (typing_list_of_room lobby "s3"
    [("isTyping", JS.Other true "true"); ("room", JS.Str "A")] "A")
    as (names & E & _); [reflexivity | done |].
  unfold recipients. rewrite E. by vm_compute.
Defined.

(** X5. A [read_message] event never changes the server state and never
    invokes a callback; all it can do is deliver [message_read] receipts
    that name the reading socket.  With a [null] payload, with no payload
    or with a falsy [messageId] it does nothing at all. *)
Theorem read_message_changes_nothing (clk : clock) (st : state) (sid : string)
    (payload : JS.payload) :
  let result := exec (on_read_message clk sid payload) st in
  result.1 = st
  ∧ acks result.2 = []
  ∧ Forall (λ d, ∃ rc, d.2 = message_read rc ∧ rc_readerId rc = sid)
      (deliveries result.2)
  ∧ exec (on_read_message clk sid JS.NullPayload) st = (st, [])
  ∧ exec (on_read_message clk sid JS.NoPayload) st = (st, [])
  ∧ (∀ props, JS.truthy (JS.get props "messageId") = false →
       exec (on_read_message clk sid (JS.Object props)) st = (st, [])).
Proof.
  intros result.
  assert (D : ∀ e ids,
    (∃ rc, e = message_read rc ∧ rc_readerId rc = sid) →
    Forall (λ d : string * server_event,
              ∃ rc, d.2 = message_read rc ∧ rc_readerId rc = sid)
      (deliveries (deliver_all e ids))).
  { intros e ids He. rewrite deliveries_deliver_all.
    apply Forall_fmap, Forall_forall. by intros id _. }
  split; [|split; [|split; [|split; [done|split; [done|]]]]].
  - subst result. destruct payload as [| |props]; [done..|].
    destruct (JS.truthy (JS.get props "messageId")) eqn:T.
    + by rewrite read_message_processed.
    + by rewrite read_message_ignored.
  - subst result. destruct payload as [| |props]; [done..|].
    destruct (JS.truthy (JS.get props "messageId")) eqn:T.
    + rewrite read_message_processed by done. apply acks_deliver_all.
    + by rewrite read_message_ignored.
  - subst result. destruct payload as [| |props]; [by constructor..|].
    destruct (JS.truthy (JS.get props "messageId")) eqn:T.
    + rewrite read_message_processed by done. apply D. eauto.
    + rewrite read_message_ignored by done. constructor.
  - intros props T. by apply read_message_ignored.
Qed.

Lemma read_message_changes_nothing_witness :
  exec (on_read_message noon "s1" (JS.Object [("messageId", JS.Str "")]))
    lobby = (lobby, []).
Proof.
  destruct (read_message_changes_nothing noon lobby "s1" JS.NoPayload)
    as (_ & _ & _ & _ & _ & H).
  apply H. reflexivity.
Defined.

(** ** What the stores are written by *)

(** X6. A [private_message] event never changes the server state, whatever
    its payload and outcome: in particular a private message is not put
    into the message log that [GET /api/messages] serves. *)
Theorem private_message_not_stored (clk : clock) (st : state) (sid : string)
    (payload : JS.payload) (callback : bool) :
  (exec (on_private_message clk sid payload callback) st).1 = st
  ∧ api_messages (exec (on_private_message clk sid payload callback) st).1
    = api_messages st.
Proof.
  assert (E : (exec (on_private_message clk sid payload callback) st).1 = st).
  { unfold on_private_message.
    destruct payload, callback; run_handler; cbn; handler_cases; reflexivity. }
  by rewrite E.
Qed.

(** X7. The message log is written by [send_message] events only, [users]
    by [user_join] and disconnect only, and [typingUsers] by [typing] and
    disconnect only: every other event leaves the store as it is. *)
Theorem stores_written_by (cfg : config) (st : state) (ev : client_event) :
  ((∀ clk sid p cb, ev ≠ SendMessage clk sid p cb) →
   messages (step cfg st ev).1 = messages st)
  ∧ ((∀ sid p cb, ev ≠ UserJoin sid p cb) →
     (∀ sid reason, ev ≠ Disconnect sid reason) →
     users (step cfg st ev).1 = users st)
  ∧ ((∀ sid p, ev ≠ Typing sid p) →
     (∀ sid reason, ev ≠ Disconnect sid reason) →
     typingUsers (step cfg st ev).1 = typingUsers st).
Proof.
  split; [|split].
  - intros N. destruct ev; try (by destruct (N clk sid messageData callback));
      step_cases; reflexivity.
  - intros N1 N2.
    destruct ev; try (by destruct (N1 sid payload callback));
      try (by destruct (N2 sid reason)); step_cases; reflexivity.
  - intros N1 N2.
    destruct ev; try (by destruct (N1 sid payload));
      try (by destruct (N2 sid reason)); step_cases; reflexivity.
Qed.

Lemma stores_written_by_witness :
  messages (step default_config lobby
              (PrivateMessage noon "s1"
                 (JS.Object [("to", JS.Str "s2"); ("text", JS.Str "psst")])
                 true)).1
  = messages lobby.
Proof.
  apply (stores_written_by default_config lobby); discriminate.
Defined.

(** ** Invariants of the registry, the log and the typing list *)

Lemma data_username_keep (f : socket_data → socket_data) (sid k : string)
    (m : gmap string socket_data) :
  (∀ d, data_username (f d) = data_username d) →
  data_username (default fresh_data (alter f sid m !! k))
    = data_username (default fresh_data (m !! k)).
Proof.
  intros Hf. rewrite lookup_alter. case_decide; subst; [|done].
  destruct (m !! k); cbn; [apply Hf | done].
Qed.

Lemma data_username_set (name : string) (r : socket_data → option string)
    (sid k : string) (m : gmap string socket_data) :
  is_Some (m !! sid) →
  data_username (default fresh_data
    (alter (λ d, {| data_username := Some name; data_room := r d |}) sid m !! k))
    = if decide (k = sid) then Some name
      else data_username (default fresh_data (m !! k)).
Proof.
  intros [d E]. rewrite lookup_alter.
  repeat case_decide; subst; try done. by rewrite E.
Qed.

(** What a step does to the names: nothing, or the actor gets a valid name
    in [users] and in its data at once, or the actor goes. *)
Lemma step_names (cfg : config) (st : state) (ev : client_event) :
  let st' := (step cfg st ev).1 in
  let sid := actor ev in
  (users st' = users st
   ∧ ∀ k, data_username (data_of st' k) = data_username (data_of st k))
  ∨ (∃ name,
       name ≠ "" ∧ (String.length name ≤ 50)%nat
       ∧ users st' = <[sid := {| user_id := sid; user_username := name |}]> (users st)
       ∧ ∀ k, data_username (data_of st' k)
              = if decide (k = sid) then Some name
                else data_username (data_of st k))
  ∨ (users st' = delete sid (users st)
     ∧ sockets st' = delete sid (sockets st)).
Proof.
  destruct ev; cbn [actor].
  1: { left. unfold step. case_decide as C; [done|]. split; [done|].
       intros k. unfold data_of, accept. cbn. rewrite lookup_insert.
       case_decide; subst; [|done].
       destruct (sockets st !! k) eqn:E; [|done]. destruct C. by eexists. }
  8: { unfold step. case_decide; [|by left]. right; right.
       unfold on_disconnect, close. run_handler. cbn.
       by destruct (users st !! sid). }
  all: step_cases; unfold data_of; cbn;
    first
      [ left; split; [reflexivity|]; intros k;
        by rewrite ?data_username_keep
      | right; left; eexists; split; [eassumption|];
        split; [first [apply slice0_length | vm_compute; lia]|];
        split; [reflexivity|]; intros k;
        rewrite ?data_username_keep by done;
        by apply data_username_set ].
Qed.

Lemma reachable_names_agree (cfg : config) (st : state) :
  reachable cfg st →
  ∀ k, user_username <$> users st !! k = data_username (data_of st k).
Proof.
  revert st.
  apply (reachable_ind cfg (λ st,
    ∀ k, user_username <$> users st !! k = data_username (data_of st k))).
  - intros k. unfold data_of. cbn. by rewrite !lookup_empty.
  - intros st ev _ IH k.
    destruct (step_names cfg st ev)
      as [[-> E] | [(name & _ & _ & -> & E) | [-> Es]]].
    + by rewrite E.
    + rewrite E, lookup_insert. repeat case_decide; subst; try done; apply IH.
    + unfold data_of. rewrite Es, !lookup_delete.
      case_decide; [done | apply IH].
Qed.

Lemma reachable_names_valid (cfg : config) (st : state) :
  reachable cfg st →
  ∀ k u, users st !! k = Some u →
         user_username u ≠ "" ∧ (String.length (user_username u) ≤ 50)%nat.
Proof.
  revert st.
  apply (reachable_ind cfg (λ st, ∀ k u, users st !! k = Some u →
    user_username u ≠ "" ∧ (String.length (user_username u) ≤ 50)%nat)).
  - intros k u. cbn. by rewrite lookup_empty.
  - intros st ev _ IH k u.
    destruct (step_names cfg st ev)
      as [[-> _] | [(name & N & L & -> & _) | [-> _]]].
    + apply IH.
    + rewrite lookup_insert. case_decide; [by intros [= <-] | apply IH].
    + rewrite lookup_delete. case_decide; [done | apply IH].
Qed.

(** X8. In every state the server can reach, [users] and the sockets' data
    tell the same story: a socket has an entry in [users] exactly when its
    [socket.data.username] is set, the two names are equal, the entry
    carries the socket's own id, and the socket is connected. *)
Theorem registry_matches_socket_data (cfg : config) (st : state)
    (sid : string) :
  reachable cfg st →
  (∀ name,
     data_username (data_of st sid) = Some name
     ↔ users st !! sid = Some {| user_id := sid; user_username := name |})
  ∧ (is_Some (users st !! sid) → connected st sid).
Proof.
  intros R. split.
  - intros name. rewrite <- (reachable_names_agree cfg st R sid).
    pose proof (reachable_users_keyed cfg st R sid) as K.
    destruct (users st !! sid) as [[i n]|]; cbn; [|done].
    specialize (K _ eq_refl). cbn in K. subst i. split; congruence.
  - apply (reachable_users_connected cfg st R).
Qed.

Lemma registry_matches_socket_data_witness :
  data_username (data_of lobby "s2") = Some "Bob"
  ↔ users lobby !! "s2" = Some {| user_id := "s2"; user_username := "Bob" |}.
Proof.
  apply (registry_matches_socket_data default_config lobby "s2").
  by exists lobby_trace.
Defined.

(** X9. In every state the server can reach, every name in [users] (and so
    every name in the roster that [user_list] and [GET /api/users] send) is
    non-empty and at most 50 characters long. *)
Theorem registered_names_valid (cfg : config) (st : state) (u : user) :
  reachable cfg st → u ∈ api_users st →
  user_username u ≠ "" ∧ (String.length (user_username u) ≤ 50)%nat.
Proof.
  intros R [[k u'] [-> Hin]]%list_elem_of_fmap.
  apply elem_of_map_to_list in Hin. by eapply reachable_names_valid.
Qed.

Lemma registered_names_valid_witness :
  "Alice" ≠ "" ∧ (String.length "Alice" ≤ 50)%nat.
Proof.
  apply (registered_names_valid default_config lobby
           {| user_id := "s1"; user_username := "Alice" |});
    [by exists lobby_trace|].
  apply (list_elem_of_fmap_2' snd _
           ("s1", {| user_id := "s1"; user_username := "Alice" |}));
    [|reflexivity].
  apply elem_of_map_to_list. by vm_compute.
Defined.

Lemma resolve_room_cases (r : JS.value) (d : socket_data) :
  resolve_room r d = JS.Null ∨ JS.truthy (resolve_room r d) = true.
Proof.
  unfold resolve_room, JS.or.
  destruct (JS.truthy r) eqn:T; [by right|].
  destruct (JS.truthy (field (data_room d))) eqn:T'; [by right | by left].
Qed.

Lemma elem_of_store_message (cfg : config) (m x : message)
    (log : list message) :
  x ∈ store_message cfg m log → x ∈ log ∨ x = m.
Proof.
  unfold store_message. intros H.
  assert (x ∈ log ++ [m]) as [?|?%list_elem_of_singleton]%elem_of_app; auto.
  destruct (_ >? _); [|done].
  destruct log; cbn in *; [by apply elem_of_nil in H | by right].
Qed.

(** What a step does to the log: nothing, or it stores one message that
    has passed the checks of [send_message]. *)
Lemma step_logged (cfg : config) (st : state) (ev : client_event) :
  messages (step cfg st ev).1 = messages st
  ∨ ∃ m, admissible cfg m
         ∧ messages (step cfg st ev).1 = store_message cfg m (messages st).
Proof.
  destruct ev; step_cases; try (by left).
  all: right; eexists; (split; [|reflexivity]); unfold admissible; cbn.
  all: split; [done|]. 
  all: split; [match goal with
               | G : (_ >? _) = false |- _ =>
                   rewrite Z.gtb_ltb in G; by apply Z.ltb_ge in G
               end|].
  all: split; [apply username_of_nonempty|]. 
  all: split; [done|]; apply resolve_room_cases.
Qed.

(** X10. In every state the server can reach, every message of the log
    (and so of the answer of [GET /api/messages]) has a non-empty text no
    longer than the configured maximum, a non-empty sender, the flag
    [isPrivate] off, and a room that is [null] or truthy. *)
Theorem logged_messages_admissible (cfg : config) (st : state) (m : message) :
  reachable cfg st → m ∈ api_messages st → admissible cfg m.
Proof.
  intros R. revert m. revert st R.
  apply (reachable_ind cfg (λ st, ∀ m, m ∈ api_messages st → admissible cfg m)).
  - intros m H. by apply elem_of_nil in H.
  - intros st ev _ IH m. unfold api_messages in *.
    destruct (step_logged cfg st ev) as [-> | (m' & A & ->)]; [apply IH|].
    intros [H | ->]%elem_of_store_message; [by apply IH | exact A].
Qed.

Lemma logged_messages_admissible_witness :
  admissible default_config
    {| msg_id := 1700000000007; msg_text := "hi"; msg_sender := "Alice";
       msg_senderId := "s1"; msg_timestamp := "2023-11-14T22:13:20.000Z";
       msg_room := JS.Str "A"; msg_isPrivate := false |}.
Proof.
  apply (logged_messages_admissible default_config
           (step default_config lobby
              (SendMessage noon "s1" (JS.Object [("text", JS.Str " hi ")])
                 true)).1).
  - apply reachable_step. by exists lobby_trace.
  - assert (api_messages
              (step default_config lobby
                 (SendMessage noon "s1" (JS.Object [("text", JS.Str " hi ")])
                    true)).1
            = [ {| msg_id := 1700000000007; msg_text := "hi";
                   msg_sender := "Alice"; msg_senderId := "s1";
                   msg_timestamp := "2023-11-14T22:13:20.000Z";
                   msg_room := JS.Str "A"; msg_isPrivate := false |} ]) as ->
      by by vm_compute.
    left.
Defined.

(** What a step does to [typingUsers], with what it does to the table of
    sockets. *)
Lemma step_typing (cfg : config) (st : state) (ev : client_event) :
  let st' := (step cfg st ev).1 in
  let sid := actor ev in
  (typingUsers st' = typingUsers st ∧ dom (sockets st) ⊆ dom (sockets st'))
  ∨ (connected st sid
     ∧ dom (sockets st') = dom (sockets st)
     ∧ typingUsers st'
       = <[sid := username_of (data_of st sid)]> (typingUsers st))
  ∨ (typingUsers st' = delete sid (typingUsers st)
     ∧ dom (sockets st) ∖ {[sid]} ⊆ dom (sockets st')).
Proof.
  destruct ev; cbn [actor].
  1: { left. unfold step. case_decide; [done|]. split; [done|].
       unfold accept. cbn. rewrite dom_insert_L. apply union_subseteq_r. }
  8: { unfold step. case_decide; [|by left]. right; right.
       unfold on_disconnect, close. run_handler. cbn.
       destruct (users st !! sid); cbn; by rewrite dom_delete_L. }
  all: step_cases;
    first
      [ left; split; [reflexivity|]; by rewrite ?dom_alter_L
      | right; left; split; [done|]; split; reflexivity
      | right; right; split; [reflexivity|]; apply subseteq_difference_l;
        done ].
Qed.

(** X11. In every state the server can reach, every entry of [typingUsers]
    belongs to a connected socket and carries a non-empty name: the typing
    lists never name a socket that is gone, and never hold an empty name. *)
Theorem typing_entries_connected (cfg : config) (st : state)
    (sid name : string) :
  reachable cfg st → typingUsers st !! sid = Some name →
  connected st sid ∧ name ≠ "".
Proof.
  intros R. revert sid name. revert st R.
  apply (reachable_ind cfg (λ st, ∀ sid name,
    typingUsers st !! sid = Some name → connected st sid ∧ name ≠ "")).
  - intros sid name. cbn. by rewrite lookup_empty.
  - intros st ev _ IH k name.
    destruct (step_typing cfg st ev)
      as [[-> S] | [(C & S & ->) | [-> S]]].
    + intros [C N]%IH. split; [|done].
      apply connected_dom, S. by apply connected_dom.
    + rewrite connected_dom, S, <- connected_dom, lookup_insert.
      case_decide; subst.
      * intros [= <-]. split; [done | apply username_of_nonempty].
      * apply IH.
    + rewrite lookup_delete. case_decide as Hk; [done|].
      intros [C N]%IH. split; [|done].
      apply connected_dom, S, elem_of_difference.
      split; [by apply connected_dom|].
      rewrite elem_of_singleton. congruence.
Qed.

Lemma typing_entries_connected_witness :
  let st := (step default_config lobby
               (Typing "s1" (JS.Object [("isTyping", JS.Other true "true")]))).1 in
  connected st "s1" ∧ "Alice" ≠ "".
Proof.
  intros st. apply (typing_entries_connected default_config st "s1" "Alice").
  - apply reachable_step. by exists lobby_trace.
  - by vm_compute.
Defined.

(** ** Joining and leaving rooms *)

Lemma enter_enter (sid r : string) (st : state) :
  enter sid r (enter sid r st) = enter sid r st.
Proof.
  unfold enter, set_sockets, set_rooms. cbn. f_equal.
  - apply map_eq. intros k. rewrite !lookup_alter.
    repeat case_decide; try done. by destruct (sockets st !! sid).
  - unfold adapter_add. rewrite lookup_insert_eq, insert_insert_eq. cbn.
    f_equal. by rewrite (assoc_L (∪)), union_idemp_L.
Qed.

(** X12. Joining a room the socket is already in changes nothing in the
    server state; the room is notified again all the same, with the same
    notice to the same sockets, and the call is acknowledged again. *)
Theorem join_room_twice (st : state) (sid r : string) (callback : bool) :
  r ≠ "" →
  let once := exec (on_join_room sid (JS.Str r) callback) st in
  let twice := exec (on_join_room sid (JS.Str r) callback) once.1 in
  twice.1 = once.1 ∧ twice.2 = once.2.
Proof.
  intros Hr once twice. subst once twice.
  rewrite !join_room_accepted by done. cbn [fst snd].
  by rewrite enter_enter.
Qed.

Lemma join_room_twice_witness :
  (exec (on_join_room "s1" (JS.Str "A") true) lobby).2
  = [ Deliver "s2" (user_joined_room "Alice" "s1" "A");
      Acknowledge "s1" AckOk ].
Proof.
  assert (H : lobby = (exec (on_join_room "s1" (JS.Str "A") true)
                         (run default_config initial
                            (removelast lobby_trace)).1).1)
    by by vm_compute.
  rewrite H at 1.
  destruct (join_room_twice
              (run default_config initial (removelast lobby_trace)).1
              "s1" "A" true) as [_ E]; [done|].
  cbn zeta in E. rewrite E. by vm_compute.
Defined.

(** X13. Joining a room and then leaving it gives back the membership of
    every room as it was before, when the socket was not in that room; the
    socket's stored current room, however, is not given back: it is cleared,
    whatever it was before the join. *)
Theorem join_then_leave (st : state) (sid r : string) (cb cb' : bool) :
  r ≠ "" → sid ∉ members st r →
  let joined := (exec (on_join_room sid (JS.Str r) cb) st).1 in
  let gone := (exec (on_leave_room sid (JS.Str r) cb') joined).1 in
  (∀ r', members gone r' = members st r')
  ∧ data_room (data_of gone sid) = None
  ∧ users gone = users st
  ∧ messages gone = messages st
  ∧ typingUsers gone = typingUsers st.
Proof.
  intros Hr N joined gone. subst joined gone.
  rewrite join_room_accepted by done. cbn [fst].
  rewrite leave_room_accepted by done. cbn [fst].
  split; [|split; [apply data_room_leave | done]].
  intros r'. rewrite members_leave, members_enter.
  case_decide; [subst|done].
  rewrite difference_union_distr_l_L, difference_diag_L, union_empty_l_L.
  apply difference_disjoint_L. by apply disjoint_singleton_r.
Qed.

Lemma join_then_leave_witness :
  data_room (data_of lobby "s1") = Some "A"
  ∧ data_room (data_of
       (exec (on_leave_room "s1" (JS.Str "B") true)
          (exec (on_join_room "s1" (JS.Str "B") true) lobby).1).1 "s1") = None
  ∧ members
      (exec (on_leave_room "s1" (JS.Str "B") true)
         (exec (on_join_room "s1" (JS.Str "B") true) lobby).1).1 "A"
    = members lobby "A".
Proof.
  destruct (join_then_leave lobby "s1" "B" true true) as (M & D & _);
    [done | by vm_compute |].
  split; [by vm_compute|]. split; [exact D | apply M].
Defined.

(** X14. [leave_room] does not ask whether the socket is in the room: for
    a room it is not in, the membership of every room stays as it is, yet
    the call is acknowledged with success, the room is told that the socket
    has left, and the socket's stored current room is cleared. *)
Theorem leave_room_not_joined (st : state) (sid r : string) :
  r ≠ "" → sid ∉ members st r →
  let result := exec (on_leave_room sid (JS.Str r) true) st in
  (∀ r', members result.1 r' = members st r')
  ∧ acks result.2 = [AckOk]
  ∧ deliveries result.2
    = (λ id, (id, user_left_room (username_of (data_of st sid)) sid r))
        <$> elements (members st r ∖ members st sid)
  ∧ data_room (data_of result.1 sid) = None.
Proof.
  intros Hr N result. subst result.
  rewrite leave_room_accepted by done. cbn [fst snd].
  assert (M : ∀ r', members (leave sid r st) r' = members st r').
  { intros r'. rewrite members_leave. case_decide; [subst|done].
    apply difference_disjoint_L. by apply disjoint_singleton_r. }
  split; [exact M|]. split; [by rewrite acks_app, acks_deliver_all|].
  split; [|apply data_room_leave].
  rewrite deliveries_app, deliveries_deliver_all, !M. cbn.
  unfold username_of. by rewrite data_username_leave, app_nil_r.
Qed.

Lemma leave_room_not_joined_witness :
  deliveries (exec (on_leave_room "s1" (JS.Str "B") true) lobby).2
  = [("s3", user_left_room "Alice" "s1" "B")].
Proof.
  destruct (leave_room_not_joined lobby "s1" "B") as (_ & _ & E & _);
    [done | by vm_compute |].
  rewrite E. by vm_compute.
Defined.

(** ** Sending messages *)

Lemma store_message_last (cfg : config) (m : message) (log : list message) :
  0 < MAX_STORED_MESSAGES cfg → last (store_message cfg m log) = Some m.
Proof.
  intros Hpos. unfold store_message.
  destruct (_ >? _) eqn:G; [|apply last_snoc].
  apply Z.gtb_lt in G. rewrite length_app in G. cbn in G.
  destruct log as [|x log]; [cbn in G; lia|]. cbn. apply last_snoc.
Qed.

(** X15. For an accepted [send_message] the message that ends up last in
    the log, the message every recipient is handed and the message the
    acknowledgment names by id and timestamp are one and the same; its text
    is the trimmed text of the payload and its id is [Date.now()] plus the
    random offset. *)
Theorem send_message_one_message (cfg : config) (clk : clock) (st : state)
    (sid : string) (props : list (string * JS.value)) :
  0 < MAX_STORED_MESSAGES cfg →
  JS.printable (JS.get props "text") = true →
  trimmed (JS.get props "text") ≠ "" →
  Z.of_nat (String.length (trimmed (JS.get props "text")))
    ≤ MAX_MESSAGE_LENGTH cfg →
  let result := exec (on_send_message cfg clk sid (JS.Object props) true) st in
  ∃ m,
    last (api_messages result.1) = Some m
    ∧ Forall (λ d, d.2 = receive_message m) (deliveries result.2)
    ∧ acks result.2 = [AckOkMessage (msg_id m) (msg_timestamp m)]
    ∧ msg_text m = trimmed (JS.get props "text")
    ∧ msg_id m = Date_now clk + random_1000 clk
    ∧ msg_senderId m = sid.
Proof.
  intros Hpos P Ht Hl result. subst result.
  rewrite send_message_accepted by done. cbn [fst snd].
  exists (built_message clk st sid props).
  split; [by apply store_message_last|]. split; [|split; [|done]].
  - rewrite deliveries_app, deliveries_deliver_all. cbn. rewrite app_nil_r.
    apply Forall_fmap, Forall_forall. by intros id _.
  - by rewrite acks_app, acks_deliver_all.
Qed.

Lemma send_message_one_message_witness :
  ∃ m, last (api_messages
               (exec (on_send_message default_config noon "s1"
                        (JS.Object [("text", JS.Str " hi ")]) true) lobby).1)
       = Some m
       ∧ msg_text m = "hi".
Proof.
  destruct (send_message_one_message default_config noon lobby "s1"
              [("text", JS.Str " hi ")]) as (m & L & _ & _ & T & _);
    [done | done | by vm_compute | by vm_compute |].
  exists m. split; [exact L | exact T].
Defined.

(** X16. A room named in the payload of [send_message] wins over the
    socket's stored current room, and membership is not asked for: the
    message goes to the members of the named room, whoever sends it; a
    sender that is not in that room does not get its own message. *)
Theorem send_message_to_named_room (cfg : config) (clk : clock) (st : state)
    (sid : string) (props : list (string * JS.value)) (r : string) :
  JS.get props "room" = JS.Str r → r ≠ "" →
  JS.printable (JS.get props "text") = true →
  trimmed (JS.get props "text") ≠ "" →
  Z.of_nat (String.length (trimmed (JS.get props "text")))
    ≤ MAX_MESSAGE_LENGTH cfg →
  let result := exec (on_send_message cfg clk sid (JS.Object props) true) st in
  recipients result.2 = elements (members st r)
  ∧ Forall (λ d, ∃ m, d.2 = receive_message m ∧ msg_room m = JS.Str r)
      (deliveries result.2)
  ∧ (sid ∉ members st r → sid ∉ recipients result.2).
Proof.
  intros R Hr P Ht Hl result. subst result.
  rewrite send_message_accepted by done. cbn [fst snd].
  assert (E : msg_room (built_message clk st sid props) = JS.Str r).
  { cbn. unfold resolve_room, JS.or. rewrite R. cbn. by case_decide. }
  assert (S : scope st (JS.Str r) = members st r).
  { unfold scope. cbn. by case_decide. }
  unfold recipients.
  rewrite deliveries_app, deliveries_deliver_all, E, S. cbn.
  rewrite app_nil_r, <- list_fmap_compose. cbn. rewrite list_fmap_id.
  split; [done|]. split; [|by rewrite elem_of_elements].
  apply Forall_fmap, Forall_forall. intros id _. cbn. eauto.
Qed.

Lemma send_message_to_named_room_witness :
  recipients (exec (on_send_message default_config noon "s1"
      (JS.Object [("text", JS.Str "hello"); ("room", JS.Str "B")]) true)
      lobby).2 = ["s3"].
Proof.
  destruct (send_message_to_named_room default_config noon lobby "s1"
    [("text", JS.Str "hello"); ("room", JS.Str "B")] "B") as (E & _);
    [done | done | done | by vm_compute | by vm_compute |].
  rewrite E. by vm_compute.
Defined.

(** X17. A maximum that is not positive does not switch a limit off, it
    shuts the door: with [MAX_STORED_MESSAGES] below one the log is empty in
    every reachable state, and with [MAX_MESSAGE_LENGTH] below one no
    [send_message] is ever accepted, so that it changes nothing and reaches
    nobody. *)
Theorem limits_below_one (cfg : config) (clk : clock) (st : state)
    (sid : string) (payload : JS.payload) (callback : bool) :
  (MAX_STORED_MESSAGES cfg < 1 → reachable cfg st → api_messages st = [])
  ∧ (MAX_MESSAGE_LENGTH cfg < 1 →
     let result := exec (on_send_message cfg clk sid payload callback) st in
     result.1 = st ∧ deliveries result.2 = []).
Proof.
  split.
  - intros Hmax R%reachable_log_bounded. unfold api_messages.
    destruct (messages st); [done | cbn in R; lia].
  - intros Hmax result. subst result. unfold on_send_message.
    destruct payload as [| |props], callback; run_handler; cbn; try done.
    all: destruct (JS.printable _) eqn:P; cbn; [|done].
    all: case_decide as E; cbn; [done|].
    all: destruct (_ >? _) eqn:G; cbn; [done|].
    all: rewrite Z.gtb_ltb in G; apply Z.ltb_ge in G.
    all: destruct (JS.trim _); [done | cbn in G; lia].
Qed.

Lemma limits_below_one_witness :
  api_messages
    (run (load_config (Some (-1)) None) initial
       [ Connect "s1";
         SendMessage noon "s1" (JS.Object [("text", JS.Str "hi")]) true ]).1
  = [].
Proof.
  apply (limits_below_one (load_config (Some (-1)) None) noon _ "s1"
           JS.NoPayload true); [done|].
  by eexists.
Defined.

(** ** The roster *)

(** X18. In every state the server can reach, the roster that [user_list]
    and [GET /api/users] send lists no socket id twice, has one entry for
    each key of [users], and holds an entry exactly when [users] holds it
    under the entry's id. *)
Theorem roster_ids_distinct (cfg : config) (st : state) :
  reachable cfg st →
  NoDup (user_id <$> api_users st)
  ∧ length (api_users st) = size (users st)
  ∧ (∀ u, u ∈ api_users st ↔ users st !! user_id u = Some u).
Proof.
  intros R. pose proof (reachable_users_keyed cfg st R) as K.
  unfold api_users, roster.
  assert (E : user_id <$> (map_to_list (users st)).*2
              = (map_to_list (users st)).*1).
  { rewrite <- list_fmap_compose. apply list_fmap_ext.
    intros i [k u] Hin%list_elem_of_lookup_2%elem_of_map_to_list. cbn.
    by apply K. }
  split; [rewrite E; apply NoDup_fst_map_to_list|].
  split; [by rewrite length_fmap, length_map_to_list|].
  intros u. rewrite list_elem_of_fmap. split.
  - intros [[k u'] [-> Hin%elem_of_map_to_list]]. cbn.
    by rewrite (K _ _ Hin).
  - intros H. exists (user_id u, u). split; [done|].
    by apply elem_of_map_to_list.
Qed.

Lemma roster_ids_distinct_witness :
  NoDup (user_id <$> api_users lobby) ∧ length (api_users lobby) = 3%nat.
Proof.
  destruct (roster_ids_distinct default_config lobby) as (N & L & _);
    [by exists lobby_trace|].
  split; [exact N|]. rewrite L. by vm_compute.
Defined.

(** X19. A [user_join] that passes the name check sets the entry of the
    calling socket and no other: every other socket keeps its entry, and a
    socket that is registered already is renamed in place, so that the
    roster does not grow. *)
Theorem user_join_sets_own_entry (st : state) (sid : string)
    (props : list (string * JS.value)) (callback : bool) :
  JS.printable (JS.get props "username") = true →
  display_name (JS.get props "username") ≠ "" →
  let st' := (exec (on_user_join sid (JS.Object props) callback) st).1 in
  dom (users st') = {[sid]} ∪ dom (users st)
  ∧ (∀ k, k ≠ sid → users st' !! k = users st !! k)
  ∧ (is_Some (users st !! sid) → size (users st') = size (users st))
  ∧ (users st !! sid = None → size (users st') = S (size (users st)))
  ∧ messages st' = messages st
  ∧ typingUsers st' = typingUsers st.
Proof.
  intros P E st'. subst st'.
  split; [rewrite user_join_users by done; apply dom_insert_L|].
  split; [intros k Hk; rewrite user_join_users by done;
          by apply lookup_insert_ne|].
  split; [|split].
  - intros [u Hu]. rewrite user_join_users by done.
    rewrite <- (insert_id (users st) sid u Hu) at 2.
    rewrite <- (insert_delete_eq (users st)).
    rewrite <- (insert_delete_eq (users st) sid u).
    by rewrite !map_size_insert_None by apply lookup_delete_eq.
  - intros N. rewrite user_join_users by done. by apply map_size_insert_None.
  - destruct (JS.printable (JS.get props "room")) eqn:Pr.
    + rewrite user_join_accepted by done. cbn.
      by destruct (JS.truthy (JS.get props "room")).
    + by rewrite user_join_room_fault.
Qed.

Lemma user_join_sets_own_entry_witness :
  size (users (exec (on_user_join "s1"
                       (JS.Object [("username", JS.Str "Alicia")]) true)
                 lobby).1)
  = size (users lobby).
Proof.
  apply (user_join_sets_own_entry lobby "s1"
           [("username", JS.Str "Alicia")] true);
    [done | by vm_compute | eexists; by vm_compute].
Defined.

(** X20. When the name of a [user_join] is fine but the room it names
    cannot be converted to a string, the handler throws after it has
    recorded the name: the socket is in [users] and has its name set, yet
    nobody is told (no roster, no [user_joined] notice), the socket joins no
    room, and the caller is answered 'Server error'. *)
Theorem user_join_half_done (st : state) (sid : string)
    (props : list (string * JS.value)) :
  connected st sid →
  JS.printable (JS.get props "username") = true →
  display_name (JS.get props "username") ≠ "" →
  JS.printable (JS.get props "room") = false →
  let result := exec (on_user_join sid (JS.Object props) true) st in
  users result.1 !! sid
    = Some {| user_id := sid;
              user_username := display_name (JS.get props "username") |}
  ∧ data_username (data_of result.1 sid)
    = Some (display_name (JS.get props "username"))
  ∧ data_room (data_of result.1 sid) = data_room (data_of st sid)
  ∧ rooms result.1 = rooms st
  ∧ result.2 = [Acknowledge sid (AckError "Server error")].
Proof.
  intros [d C] P E Pr result. subst result.
  rewrite user_join_room_fault by done. cbn [fst snd acked].
  unfold identify, data_of. cbn. rewrite lookup_insert_eq, lookup_alter_eq, C.
  done.
Qed.

Lemma user_join_half_done_witness :
  let result :=
    exec (on_user_join "s1"
            (JS.Object [("username", JS.Str "Zed"); ("room", JS.Opaque)])
            true) fresh in
  users result.1 !! "s1" = Some {| user_id := "s1"; user_username := "Zed" |}
  ∧ result.2 = [Acknowledge "s1" (AckError "Server error")].
Proof.
  intros result.
  destruct (user_join_half_done fresh "s1"
              [("username", JS.Str "Zed"); ("room", JS.Opaque)])
    as (U & _ & _ & _ & A);
    [eexists; by vm_compute | done | by vm_compute | done |].
  split; [exact U | exact A].
Defined.

(** X21. A private message that a registered socket sends to itself is
    delivered to it twice, once through [io.to] and once through
    [socket.emit], as long as the room named by its id holds it alone. *)
Theorem private_message_to_self (clk : clock) (st : state) (sid : string)
    (props : list (string * JS.value)) :
  JS.printable (JS.get props "to") = true →
  JS.printable (JS.get props "text") = true →
  trimmed (JS.get props "to") = sid → sid ≠ "" →
  trimmed (JS.get props "text") ≠ "" →
  is_Some (users st !! sid) → members st sid = {[sid]} →
  let result := exec (on_private_message clk sid (JS.Object props) true) st in
  recipients result.2 = [sid; sid]
  ∧ acks result.2
    = [AckOkMessage (Date_now clk + random_1000 clk) (toISOString clk)].
Proof.
  intros P1 P2 T N Ht U M result. subst result.
  split.
  - unfold recipients.
    rewrite private_message_two_deliveries; rewrite ?T; done.
  - rewrite private_message_accepted by (rewrite ?T; done). cbn [snd].
    by rewrite !acks_app, acks_deliver_all.
Qed.

Lemma private_message_to_self_witness :
  recipients (exec (on_private_message noon "s1"
      (JS.Object [("to", JS.Str "s1"); ("text", JS.Str "note")]) true)
      lobby).2 = ["s1"; "s1"].
Proof.
  apply (private_message_to_self noon lobby "s1"
           [("to", JS.Str "s1"); ("text", JS.Str "note")]);
    try done; try (by vm_compute).
Defined.

(** * The chat page *)

Section ClientMessages.
Context {A : Type}.
Implicit Types (prev ms : list A) (m : A).

Lemma addMessage_snoc prev m :
  (length prev < 500)%nat → Client.addMessage prev m = prev ++ [m].
Proof.
  intros L. unfold Client.addMessage. rewrite length_app. cbn.
  by replace (length prev + 1 - 500)%nat with 0%nat by lia.
Qed.

Lemma addMessage_full prev m :
  (500 ≤ length prev)%nat →
  Client.addMessage prev m = drop (length prev - 499) prev ++ [m].
Proof.
  intros L. unfold Client.addMessage. rewrite length_app. cbn.
  rewrite drop_app_le by lia. do 2 f_equal. lia.
Qed.

Lemma addMessage_all ms :
  fold_left Client.addMessage ms [] = drop (length ms - 500) ms.
Proof.
  induction ms as [|m ms IH] using rev_ind; [done|].
  rewrite fold_left_app, IH. cbn. unfold Client.addMessage.
  rewrite !length_app, length_drop. cbn [length].
  rewrite drop_app_le by (rewrite length_drop; lia).
  rewrite drop_drop, drop_app_le by lia. do 2 f_equal. lia.
Qed.
End ClientMessages.

(** X22. [addMessage] of the chat page keeps the list of messages at 500
    entries at most, whatever the length of the list it is given: the new
    message is always the last entry, a list shorter than 500 is kept whole,
    and otherwise the oldest entries go.  Messages added one by one to an
    empty list leave the last 500 of them, in order. *)
Theorem addMessage_bounded {A} (prev ms : list A) (m : A) :
  (length (Client.addMessage prev m) ≤ 500)%nat
  ∧ last (Client.addMessage prev m) = Some m
  ∧ ((length prev < 500)%nat → Client.addMessage prev m = prev ++ [m])
  ∧ ((500 ≤ length prev)%nat →
     Client.addMessage prev m = drop (length prev - 499) prev ++ [m])
  ∧ fold_left Client.addMessage ms [] = drop (length ms - 500) ms.
Proof.
  split; [|split; [|split; [apply addMessage_snoc|
                            split; [apply addMessage_full|
                                    apply addMessage_all]]]].
  - unfold Client.addMessage. rewrite length_drop, length_app. cbn. lia.
  - destruct (decide (length prev < 500)%nat).
    + rewrite addMessage_snoc by done. apply last_snoc.
    + rewrite addMessage_full by lia. apply last_snoc.
Qed.

Lemma addMessage_bounded_witness :
  Client.addMessage [1; 2; 3]%nat 4%nat = [1; 2; 3; 4]%nat.
Proof.
  destruct (addMessage_bounded [1; 2; 3]%nat [] 4%nat) as (_ & _ & H & _).
  apply H. simpl length. lia.
Defined.

(** X23. What the message list shows.  With no user selected it shows
    exactly the entries that are not private, system notices included.
    With a user selected it shows no system notice and no public message;
    it shows a private message exactly when the selected user is its sender
    or its recipient, or when its sender's name is the viewer's own name.
    So no message is shown in both kinds of view, and a private message
    sent under the viewer's name shows in the conversation with every user,
    whoever it was sent to. *)
Theorem message_list_views (currentUser peer : string) (m : Client.entry) :
  peer ≠ "" →
  Client.visible currentUser None m = negb (Client.private m)
                                      || Client.system m
  ∧ Client.visible currentUser (Some peer) m
    = negb (Client.system m) && Client.private m
      && (bool_decide (Client.senderId m = Some peer)
          || bool_decide (Client.recipientId m = Some peer)
          || bool_decide (Client.sender m = currentUser))
  ∧ (Client.system m = false →
     Client.visible currentUser None m = true →
     Client.visible currentUser (Some peer) m = false)
  ∧ (∀ msg, Client.entry_of (receive_message msg) = Some m →
            Client.visible currentUser (Some peer) m = false
            ∧ Client.visible currentUser None m = true)
  ∧ (∀ pm, Client.entry_of (private_message pm) = Some m →
           pm_sender pm = currentUser →
           Client.visible currentUser (Some peer) m = true
           ∧ Client.visible currentUser None m = false).
Proof.
  intros Hp. unfold Client.visible, Client.selected.
  rewrite decide_False by done.
  split; [by destruct (Client.system m), (Client.private m)|].
  split; [by destruct (Client.system m), (Client.private m)|].
  split; [by destruct (Client.system m), (Client.private m)|].
  split.
  - intros msg [= <-]. done.
  - intros pm [= <-] S. cbn. rewrite (bool_decide_eq_true_2 _ S).
    by rewrite !orb_true_r.
Qed.

Lemma message_list_views_witness :
  Client.visible "Alice" (Some "s3")
    {| Client.system := false; Client.private := true;
       Client.senderId := Some "s1"; Client.recipientId := Some "s2";
       Client.sender := "Alice" |} = true.
Proof.
  destruct (message_list_views "Alice" "s3"
    {| Client.system := false; Client.private := true;
       Client.senderId := Some "s1"; Client.recipientId := Some "s2";
       Client.sender := "Alice" |}) as (_ & _ & _ & _ & H); [done|].
  apply (H {| pm_id := 1; pm_text := "psst"; pm_sender := "Alice";
              pm_senderId := "s1"; pm_recipientId := "s2";
              pm_timestamp := ""; pm_isPrivate := true |});
    reflexivity.
Defined.
